(** * SimRadio: the simulated packet radio of the portduino platform

    A shallow embedding of [src/platform/portduino/SimRadio.cpp].

    The member functions of [SimRadio] become functions in a small monad
    that threads the fields of the object, collects the calls made to the
    collaborators of the radio (packet pool, airtime accounting, phone
    transport, router, logger, clock) in the order they are made, and can
    stop on a failed [assert].  The timers of the simulator are blocking:
    [startTransmitTimer] sleeps and then calls [onNotify] itself, so the
    dispatcher is re-entered from its own body; that recursion is driven
    by a fuel argument. *)

From Stdlib Require Import String List NArith ZArith Bool Lia Floats Permutation.
Import ListNotations.
Local Open Scope N_scope.

(** ** Packets and envelopes *)

(** A nanopb byte array: a size field next to a fixed buffer. *)
Record pb_bytes_array := {
  size : N;
  bytes : list Byte.byte
}.

(** [memcpy(dst, src, n)] on two buffers held as lists. *)
Definition memcpy (dst src : list Byte.byte) (n : N) : list Byte.byte :=
  firstn (N.to_nat n) src ++ skipn (N.to_nat n) dst.

(** The decoded view of a packet, [p->decoded]. *)
Record Data := {
  portnum : N;
  payload : pb_bytes_array
}.

(** The fields of [MeshPacket] that the radio reads or writes.  [rx_snr]
    is a [float] in the source; the radio only compares it with zero and
    passes it on, which the kernel's binary64 floats do in the same way
    (both zeros compare equal to 0, a NaN does not).  [rx_rssi] is a
    signed 32-bit integer. *)
Record MeshPacket := {
  from : N;
  id : N;
  hop_limit : N;
  rx_snr : float;
  rx_rssi : Z;
  which_payload_variant : N;
  decoded : Data
}.

(** The wire envelope, [Compressed]. *)
Record Compressed := {
  Compressed_portnum : N;
  Compressed_data : pb_bytes_array
}.

Definition set_decoded (p : MeshPacket) (d : Data) : MeshPacket :=
  {| from := from p; id := id p; hop_limit := hop_limit p;
     rx_snr := rx_snr p; rx_rssi := rx_rssi p;
     which_payload_variant := which_payload_variant p;
     decoded := d |}.

Definition set_which_payload_variant (p : MeshPacket) (v : N) : MeshPacket :=
  {| from := from p; id := id p; hop_limit := hop_limit p;
     rx_snr := rx_snr p; rx_rssi := rx_rssi p;
     which_payload_variant := v;
     decoded := decoded p |}.

(** ** Declarations that live outside the translation unit

    Constants, sizes and pure helpers that [SimRadio.cpp] takes from its
    headers and from the router; every result below holds for any choice
    of them. *)
Class Platform := {
  (** the notification codes of the dispatcher *)
  ISR_RX : N;
  ISR_TX : N;
  TRANSMIT_DELAY_COMPLETED : N;
  (** they are the labels of one [switch], hence pairwise different *)
  notification_codes_distinct :
    negb (ISR_TX =? ISR_RX) && negb (ISR_TX =? TRANSMIT_DELAY_COMPLETED)
      && negb (ISR_RX =? TRANSMIT_DELAY_COMPLETED) = true;
  PortNum_SIMULATOR_APP : N;
  MeshPacket_decoded_tag : N;
  (** [sizeof(c.data.bytes)], [sizeof(p->decoded.payload.bytes)],
      [sizeof(PacketHeader)] *)
  sizeof_Compressed_data_bytes : N;
  sizeof_payload_bytes : N;
  sizeof_PacketHeader : N;
  (** [getPacketTime] on a packet and [getPacketTime] on a length *)
  getPacketTime : MeshPacket -> N;
  getPacketTime_len : N -> N;
  (** the router's [perhapsDecode], as the packet it leaves behind *)
  perhapsDecode : MeshPacket -> MeshPacket;
  (** [pb_encode_to_bytes(buf, bufsize, &Compressed_msg, &c)]: the bytes
      written; their number is the value returned *)
  pb_encode_to_bytes : N -> Compressed -> list Byte.byte;
  (** the value [beginSending] returns *)
  bytesQueued : MeshPacket -> N;
  (** the default of [startTransmitTimer]'s [withDelay] argument *)
  startTransmitTimer_default : bool
}.

(** ** Calls made to the collaborators *)

Inductive LogLevel := LOG_LEVEL_DEBUG | LOG_LEVEL_WARN.

Inductive reportTypes := TX_LOG | RX_LOG.

(** What is handed to [delay]: a number of milliseconds, or the value
    drawn by [getTxDelayMsec()] or computed by
    [getTxDelayMsecWeighted(snr)]. *)
Inductive DelayMsec :=
| Msec (ms : N)
| TxDelayMsec
| TxDelayMsecWeighted (snr : float).

Inductive Event :=
| EvPrintPacket (prefix : string) (p : MeshPacket)
| EvLog (lvl : LogLevel) (fmt : string)
| EvRelease (p : MeshPacket)
| EvAllocCopy (p : MeshPacket)
| EvDelay (d : DelayMsec)
| EvLogAirtime (r : reportTypes) (ms : N)
| EvEncode (c : Compressed)
| EvSendToPhone (p : MeshPacket)
| EvDeliverToReceiver (p : MeshPacket).

(** ** The transmit queue *)

Record MeshPacketQueue := {
  queue : list MeshPacket;
  maxLen : nat
}.

Definition matches (origin ident : N) (p : MeshPacket) : bool :=
  (from p =? origin) && (id p =? ident).

(** Modelled from the spec: [MeshPacketQueue] is declared and defined
    outside [SimRadio.cpp].  Section 4.1: a bounded FIFO whose capacity is
    fixed at construction; [enqueue] fails if the queue is full and leaves
    it as it was. *)
Definition enqueue (p : MeshPacket) (q : MeshPacketQueue) : bool * MeshPacketQueue :=
  if (length (queue q) <? maxLen q)%nat
  then (true, {| queue := queue q ++ [p]; maxLen := maxLen q |})
  else (false, q).

(** Modelled from the spec: [MeshPacketQueue::getFront], section 4.1
    [peekFront]: the head of the queue, which stays in place; a null
    pointer when there is none. *)
Definition getFront (q : MeshPacketQueue) : option MeshPacket :=
  hd_error (queue q).

(** Modelled from the spec: [MeshPacketQueue::dequeue], section 4.1
    [dequeueFront]: removes and returns the head; nothing to return when
    the queue is empty. *)
Definition dequeue (q : MeshPacketQueue) : option MeshPacket * MeshPacketQueue :=
  match queue q with
  | [] => (None, q)
  | p :: rest => (Some p, {| queue := rest; maxLen := maxLen q |})
  end.

(** Modelled from the spec: [MeshPacketQueue::remove], section 4.1
    [removeByKey]: a linear scan that takes out at most one packet, the
    first whose origin and id match, and keeps the others in order. *)
Fixpoint remove_first (origin ident : N) (l : list MeshPacket)
  : option MeshPacket * list MeshPacket :=
  match l with
  | [] => (None, [])
  | p :: rest =>
      if matches origin ident p then (Some p, rest)
      else let '(r, rest') := remove_first origin ident rest in (r, p :: rest')
  end.

Definition remove (origin ident : N) (q : MeshPacketQueue)
  : option MeshPacket * MeshPacketQueue :=
  let '(r, l) := remove_first origin ident (queue q) in
  (r, {| queue := l; maxLen := maxLen q |}).

(** Modelled from the spec: [MeshPacketQueue::empty], [getFree] and
    [getMaxLen], section 4.1 [freeSlots] and [capacity]. *)
Definition empty (q : MeshPacketQueue) : bool :=
  match queue q with [] => true | _ => false end.

Definition getFree (q : MeshPacketQueue) : nat := (maxLen q - length (queue q))%nat.

Definition getMaxLen (q : MeshPacketQueue) : nat := maxLen q.

(** ** The radio object *)

Record SimRadio := {
  txQueue : MeshPacketQueue;
  sendingPacket : option MeshPacket;
  isReceiving : bool;
  txGood : N
}.

(** Modelled from the spec: [ErrorCode] is declared outside [SimRadio.cpp],
    which names [ERRNO_OK] and [ERRNO_UNKNOWN].  Section 6: the codes of
    [send] are [Ok], [QueueFull] and [Unknown]. *)
Inductive ErrorCode := ERRNO_OK | ERRNO_QUEUE_FULL | ERRNO_UNKNOWN.

Definition ErrorCode_eqb (a b : ErrorCode) : bool :=
  match a, b with
  | ERRNO_OK, ERRNO_OK | ERRNO_QUEUE_FULL, ERRNO_QUEUE_FULL
  | ERRNO_UNKNOWN, ERRNO_UNKNOWN => true
  | _, _ => false
  end.

Record QueueStatus := {
  res : N;
  mesh_packet_id : N;
  free : nat;
  qs_maxlen : nat
}.

(** ** The monad of member functions *)

Inductive failure := AssertFailed | NullDereference.

(** How a call ends: it returns, it stops the program, or the model ran
    out of fuel while the call was still running. *)
Inductive outcome (A : Type) :=
| Ret (a : A)
| Crash (f : failure)
| OutOfFuel.
Arguments Ret {A} a.
Arguments Crash {A} f.
Arguments OutOfFuel {A}.

(** A run: how it ended, the object as it was left, and the calls made to
    the collaborators, oldest first. *)
Record run (A : Type) := mkRun {
  out : outcome A;
  final : SimRadio;
  emitted : list Event
}.
Arguments mkRun {A} out final emitted.
Arguments out {A} r.
Arguments final {A} r.
Arguments emitted {A} r.

Definition M (A : Type) : Type := SimRadio -> run A.

Definition ret {A} (a : A) : M A := fun s => mkRun (Ret a) s [].

Definition bind {A B} (m : M A) (k : A -> M B) : M B :=
  fun s =>
    match m s with
    | mkRun (Ret a) s1 e1 =>
        match k a s1 with
        | mkRun o s2 e2 => mkRun o s2 (e1 ++ e2)
        end
    | mkRun (Crash f) s1 e1 => mkRun (Crash f) s1 e1
    | mkRun OutOfFuel s1 e1 => mkRun OutOfFuel s1 e1
    end.

Declare Scope sim_scope.
Delimit Scope sim_scope with sim.
Notation "x <- m ;; k" := (bind m (fun x => k))
  (at level 61, m at next level, right associativity) : sim_scope.
Notation "m ;; k" := (bind m (fun _ => k))
  (at level 61, right associativity) : sim_scope.
Local Open Scope sim_scope.

Definition emit (e : Event) : M unit := fun s => mkRun (Ret tt) s [e].
Definition get : M SimRadio := fun s => mkRun (Ret s) s [].
Definition crash {A} (f : failure) : M A := fun s => mkRun (Crash f) s [].
Definition out_of_fuel {A} : M A := fun s => mkRun OutOfFuel s [].

Definition assert (b : bool) : M unit :=
  if b then ret tt else crash AssertFailed.

Definition when (b : bool) (m : M unit) : M unit :=
  if b then m else ret tt.

(** Field updates. *)
Definition set_txQueue (q : MeshPacketQueue) : M unit :=
  fun s => mkRun (Ret tt)
    {| txQueue := q; sendingPacket := sendingPacket s;
       isReceiving := isReceiving s; txGood := txGood s |} [].

Definition set_sendingPacket (sp : option MeshPacket) : M unit :=
  fun s => mkRun (Ret tt)
    {| txQueue := txQueue s; sendingPacket := sp;
       isReceiving := isReceiving s; txGood := txGood s |} [].

Definition set_isReceiving (b : bool) : M unit :=
  fun s => mkRun (Ret tt)
    {| txQueue := txQueue s; sendingPacket := sendingPacket s;
       isReceiving := b; txGood := txGood s |} [].

Definition set_txGood (n : N) : M unit :=
  fun s => mkRun (Ret tt)
    {| txQueue := txQueue s; sendingPacket := sendingPacket s;
       isReceiving := isReceiving s; txGood := n |} [].

(** The collaborators, as the calls they receive. *)
Definition printPacket (prefix : string) (p : MeshPacket) : M unit :=
  emit (EvPrintPacket prefix p).
Definition LOG_DEBUG (fmt : string) : M unit := emit (EvLog LOG_LEVEL_DEBUG fmt).
Definition LOG_WARN (fmt : string) : M unit := emit (EvLog LOG_LEVEL_WARN fmt).
Definition packetPool_release (p : MeshPacket) : M unit := emit (EvRelease p).
(** [allocCopy] hands back a fresh packet with the contents of [p]. *)
Definition packetPool_allocCopy (p : MeshPacket) : M MeshPacket :=
  emit (EvAllocCopy p) ;; ret p.
Definition delay (d : DelayMsec) : M unit := emit (EvDelay d).
Definition airTime_logAirtime (r : reportTypes) (ms : N) : M unit :=
  emit (EvLogAirtime r ms).
Definition service_sendToPhone (p : MeshPacket) : M unit := emit (EvSendToPhone p).
Definition deliverToReceiver (p : MeshPacket) : M unit :=
  emit (EvDeliverToReceiver p).

(** The queue operations, on the [txQueue] field. *)
Definition txQueue_enqueue (p : MeshPacket) : M bool :=
  s <- get ;;
  let '(ok, q) := enqueue p (txQueue s) in
  set_txQueue q ;; ret ok.

Definition txQueue_getFront : M (option MeshPacket) :=
  s <- get ;; ret (getFront (txQueue s)).

Definition txQueue_empty : M bool :=
  s <- get ;; ret (empty (txQueue s)).

Definition txQueue_dequeue : M (option MeshPacket) :=
  s <- get ;;
  let '(r, q) := dequeue (txQueue s) in
  set_txQueue q ;; ret r.

Definition txQueue_remove (origin ident : N) : M (option MeshPacket) :=
  s <- get ;;
  let '(r, q) := remove origin ident (txQueue s) in
  set_txQueue q ;; ret r.

(** ** The member functions of [SimRadio] *)

Section Members.
Context `{Platform}.

(** The counters of the radio interface are 32-bit unsigned. *)
Definition wrap32 (n : N) : N := n mod 2 ^ 32.
Arguments wrap32 : simpl never.

(** Modelled from the spec: the macro [Compressed_init_default] comes from
    the generated protobuf header.  Sections 3 and 4.4: the envelope is a
    fixed-capacity byte buffer with a size field and a port tag, and the
    envelope that has not been filled carries an empty payload, size 0. *)
Definition Compressed_init_default : Compressed :=
  {| Compressed_portnum := 0;
     Compressed_data :=
       {| size := 0;
          bytes := repeat Byte.x00 (N.to_nat sizeof_Compressed_data_bytes) |} |}.

(** Modelled from the spec: [beginSending] belongs to the radio interface
    base class.  Section 4.3: on the way to the framed transmission the
    scheduler moves to [Sending], the state in which one frame is on air,
    which [canSendImmediately] reads back as [sendingPacket != NULL];
    section 6: [beginSending(packet) -> bytesQueued]. *)
Definition beginSending (p : MeshPacket) : M N :=
  set_sendingPacket (Some p) ;;
  ret (bytesQueued p).

Definition completeSending : M unit :=
  s <- get ;;
  let p := sendingPacket s in
  set_sendingPacket None ;;
  match p with
  | Some p =>
      s' <- get ;;
      set_txGood (wrap32 (txGood s' + 1)) ;;
      printPacket "Completed sending" p ;;
      packetPool_release p
  | None => ret tt
  end.

Definition handleTransmitInterrupt : M unit :=
  s <- get ;;
  match sendingPacket s with
  | Some _ => completeSending
  | None => ret tt
  end.

Definition isActivelyReceiving : M bool := ret false.

Definition isChannelActive : M bool := ret false.

Definition canSendImmediately : M bool :=
  s <- get ;;
  let busyTx := match sendingPacket s with Some _ => true | None => false end in
  busyRx <- (if isReceiving s then isActivelyReceiving else ret false) ;;
  if busyTx || busyRx then
    when busyTx (LOG_WARN "Can not send yet, busyTx\n") ;;
    when busyRx (LOG_WARN "Can not send yet, busyRx\n") ;;
    ret false
  else ret true.

Definition cancelSending (origin ident : N) : M bool :=
  p <- txQueue_remove origin ident ;;
  match p with
  | Some p => packetPool_release p
  | None => ret tt
  end ;;
  let result := match p with Some _ => true | None => false end in
  LOG_DEBUG "cancelSending id=0x%x, removed=%d\n" ;;
  ret result.

(** The envelope [startSend] builds for a decoded copy [p]; the flag
    says whether the payload fitted. *)
Definition frame (p : MeshPacket) : Compressed * bool :=
  let c := Compressed_init_default in
  let c := {| Compressed_portnum := portnum (decoded p);
              Compressed_data := Compressed_data c |} in
  if size (payload (decoded p)) <=? sizeof_Compressed_data_bytes then
    ({| Compressed_portnum := Compressed_portnum c;
        Compressed_data :=
          {| size := size (payload (decoded p));
             bytes := memcpy (bytes (Compressed_data c))
                             (bytes (payload (decoded p)))
                             (size (payload (decoded p))) |} |}, true)
  else (c, false).

Definition startSend (txp : MeshPacket) : M unit :=
  printPacket "Starting low level send" txp ;;
  numbytes <- beginSending txp ;;
  p <- packetPool_allocCopy txp ;;
  let p := perhapsDecode p in
  let '(c, fits) := frame p in
  when (negb fits)
    (LOG_WARN "Payload size is larger than compressed message allows! Sending empty payload.\n") ;;
  emit (EvEncode c) ;;
  let enc := pb_encode_to_bytes sizeof_payload_bytes c in
  let p := set_decoded p
             {| portnum := portnum (decoded p);
                payload :=
                  {| size := N.of_nat (length enc);
                     bytes := memcpy (bytes (payload (decoded p))) enc
                                     (N.of_nat (length enc)) |} |} in
  let p := set_decoded p
             {| portnum := PortNum_SIMULATOR_APP;
                payload := payload (decoded p) |} in
  service_sendToPhone p.

Definition getPacketLength (mp : MeshPacket) : N :=
  size (payload (decoded mp)) + sizeof_PacketHeader.

Definition handleReceiveInterrupt (p : MeshPacket) : M unit :=
  LOG_DEBUG "HANDLE RECEIVE INTERRUPT\n" ;;
  s <- get ;;
  assert (isReceiving s) ;;
  set_isReceiving false ;;
  let length := getPacketLength p in
  let xmitMsec := getPacketTime_len length in
  mp <- packetPool_allocCopy p ;;
  let mp := set_which_payload_variant mp MeshPacket_decoded_tag in
  printPacket "Lora RX" mp ;;
  airTime_logAirtime RX_LOG xmitMsec ;;
  deliverToReceiver mp.

Definition startReceive (p : MeshPacket) : M unit :=
  set_isReceiving true ;;
  let length := getPacketLength p in
  let xmitMsec := getPacketTime_len length in
  delay (Msec xmitMsec) ;;
  handleReceiveInterrupt p.

Definition getQueueStatus : M QueueStatus :=
  s <- get ;;
  ret {| res := 0; mesh_packet_id := 0;
         free := getFree (txQueue s);
         qs_maxlen := getMaxLen (txQueue s) |}.

(** *** The timers and the dispatcher

    The timers call back into the dispatcher; [onNotify] below stands for
    that re-entrant call. *)
Section Timers.
Variable onNotify : N -> M unit.

Definition startTransmitTimer (withDelay : bool) : M unit :=
  e <- txQueue_empty ;;
  if negb e then
    let delayMsec := if negb withDelay then Msec 1 else TxDelayMsec in
    delay delayMsec ;;
    onNotify TRANSMIT_DELAY_COMPLETED
  else
    LOG_DEBUG "TX QUEUE EMPTY!\n".

Definition startTransmitTimerSNR (snr : float) : M unit :=
  e <- txQueue_empty ;;
  if negb e then
    let delayMsec := TxDelayMsecWeighted snr in
    delay delayMsec ;;
    onNotify TRANSMIT_DELAY_COMPLETED
  else ret tt.

Definition setTransmitDelay : M unit :=
  front <- txQueue_getFront ;;
  match front with
  | None => crash NullDereference
  | Some p =>
      if PrimFloat.eqb (rx_snr p) 0%float && (rx_rssi p =? 0)%Z then
        startTransmitTimer true
      else
        LOG_DEBUG "rx_snr found. hop_limit:%d rx_snr:%f\n" ;;
        startTransmitTimerSNR (rx_snr p)
  end.

Definition send (p : MeshPacket) : M ErrorCode :=
  printPacket "enqueuing for send" p ;;
  ok <- txQueue_enqueue p ;;
  let res := if ok : bool then ERRNO_OK else ERRNO_UNKNOWN in
  if negb (ErrorCode_eqb res ERRNO_OK) then
    packetPool_release p ;;
    ret res
  else
    LOG_DEBUG "Set random delay before transmitting.\n" ;;
    setTransmitDelay ;;
    ret res.

Definition onNotify_body (notification : N) : M unit :=
  if notification =? ISR_TX then
    handleTransmitInterrupt ;;
    LOG_DEBUG "tx complete - starting timer\n" ;;
    startTransmitTimer startTransmitTimer_default
  else if notification =? ISR_RX then
    LOG_DEBUG "rx complete - starting timer\n"
  else if notification =? TRANSMIT_DELAY_COMPLETED then
    LOG_DEBUG "delay done\n" ;;
    e <- txQueue_empty ;;
    if negb e then
      can <- canSendImmediately ;;
      if negb can then
        setTransmitDelay
      else
        active <- isChannelActive ;;
        if active : bool then
          setTransmitDelay
        else
          txp <- txQueue_dequeue ;;
          match txp with
          | None => crash AssertFailed
          | Some txp =>
              startSend txp ;;
              let xmitMsec := getPacketTime txp in
              airTime_logAirtime TX_LOG xmitMsec ;;
              delay (Msec xmitMsec) ;;
              completeSending
          end
    else ret tt
  else
    crash AssertFailed.

End Timers.

(** The dispatcher; [fuel] bounds how often it is re-entered from the
    timers. *)
Fixpoint onNotify (fuel : nat) (notification : N) : M unit :=
  match fuel with
  | O => out_of_fuel
  | S fuel' => onNotify_body (onNotify fuel') notification
  end.

End Members.

(** ** A concrete platform and sample objects

    One choice of the parameters, on which the model can be run: three
    notification codes, the simulator port number 69, buffers of 237
    bytes and a packet header of 16 bytes, an airtime of 8 ms per byte,
    a router that leaves the packet as it is and a serializer that
    writes the payload bytes of the envelope. *)
#[export] Instance portduino : Platform := {|
  ISR_RX := 1;
  ISR_TX := 2;
  TRANSMIT_DELAY_COMPLETED := 3;
  notification_codes_distinct := eq_refl;
  PortNum_SIMULATOR_APP := 69;
  MeshPacket_decoded_tag := 4;
  sizeof_Compressed_data_bytes := 237;
  sizeof_payload_bytes := 237;
  sizeof_PacketHeader := 16;
  getPacketTime := fun p => 8 * (size (payload (decoded p)) + 16);
  getPacketTime_len := fun n => 8 * n;
  perhapsDecode := fun p => p;
  pb_encode_to_bytes := fun _ c =>
    firstn (N.to_nat (size (Compressed_data c))) (bytes (Compressed_data c));
  bytesQueued := fun p => size (payload (decoded p)) + 16;
  startTransmitTimer_default := true
|}.

(** A packet of [n] payload bytes on port 1. *)
Definition packet (origin ident : N) (snr : float) (rssi : Z) (n : nat) : MeshPacket :=
  {| from := origin; id := ident; hop_limit := 3;
     rx_snr := snr; rx_rssi := rssi;
     which_payload_variant := 4;
     decoded := {| portnum := 1;
                   payload := {| size := N.of_nat n;
                                 bytes := repeat Byte.x2a n |} |} |}.

(** A locally originated packet: no signal metrics. *)
Definition local_packet (ident : N) : MeshPacket := packet 7 ident 0%float 0%Z 3.

(** A relayed packet, heard with an SNR of 10 dB at -60 dBm. *)
Definition relayed_packet (ident : N) : MeshPacket := packet 9 ident 10%float (-60)%Z 3.

Definition radio (l : list MeshPacket) (cap : nat) (sp : option MeshPacket)
  (rx : bool) : SimRadio :=
  {| txQueue := {| queue := l; maxLen := cap |};
     sendingPacket := sp; isReceiving := rx; txGood := 0 |}.

(** A queue of capacity 4 holding 4 packets. *)
Definition full4 : SimRadio :=
  radio [local_packet 1; local_packet 2; local_packet 3; local_packet 4] 4 None false.

(** An idle radio with an empty queue of capacity 4. *)
Definition idle4 : SimRadio := radio [] 4 None false.

(** ** Observations on the calls made *)

Definition is_tx_airtime (e : Event) : bool :=
  match e with EvLogAirtime TX_LOG _ => true | _ => false end.

Definition is_release (e : Event) : bool :=
  match e with EvRelease _ => true | _ => false end.

Definition is_sendToPhone (e : Event) : bool :=
  match e with EvSendToPhone _ => true | _ => false end.

Definition count (f : Event -> bool) (l : list Event) : nat :=
  length (filter f l).

(** The delay [setTransmitDelay] arms for the packet at the head of the
    queue, and the calls a dispatcher makes when it only re-arms it: log
    lines and delays of that kind. *)
Definition rearms_only (d : DelayMsec) (e : Event) : Prop :=
  match e with
  | EvLog _ _ => True
  | EvDelay d' => d' = d
  | _ => False
  end.

(** A radio with a packet in flight and one waiting, and a radio that is
    receiving with one packet waiting. *)
Definition busy_tx : SimRadio :=
  radio [relayed_packet 2] 4 (Some (local_packet 1)) false.

Definition receiving1 : SimRadio := radio [local_packet 1] 4 None true.

(** A packet whose 300 payload bytes exceed the 237 bytes of the envelope,
    and an idle radio with that packet waiting. *)
Definition big_packet : MeshPacket := packet 7 1 0%float 0%Z 300.

Definition big_waiting : SimRadio := radio [big_packet] 4 None false.

(** Five submits in a row, each on the radio the previous one left. *)
Fixpoint submit_all (fuel : nat) (l : list MeshPacket) (st : SimRadio)
  : list (outcome ErrorCode) * SimRadio :=
  match l with
  | [] => ([], st)
  | p :: rest =>
      let r := send (onNotify fuel) p st in
      let '(outs, st') := submit_all fuel rest (final r) in
      (out r :: outs, st')
  end.

(** ** Reading received data

    [readData(data, len)]: with [state] equal to [RADIOLIB_ERR_NONE] the
    test always succeeds, a zero byte is stored at index [len] and the
    state is returned.  The buffer is a list; a store past its end has
    no defined result. *)
Definition store (data : list Byte.byte) (i : nat) (b : Byte.byte)
  : option (list Byte.byte) :=
  if (i <? length data)%nat
  then Some (firstn i data ++ b :: skipn (S i) data)
  else None.

Definition readData (RADIOLIB_ERR_NONE : Z) (data : list Byte.byte) (len : N)
  : option (list Byte.byte * Z) :=
  let state := RADIOLIB_ERR_NONE in
  if (state =? RADIOLIB_ERR_NONE)%Z then
    match store data (N.to_nat len) Byte.x00 with
    | Some data' => Some (data', state)
    | None => None
    end
  else Some (data, state).

(** ** Calls from outside

    The entry points of the radio as one type of requests, and a radio
    serving a list of them one after the other. *)
Inductive request :=
| ReqSend (p : MeshPacket)
| ReqCancel (origin ident : N)
| ReqNotify (notification : N)
| ReqReceive (p : MeshPacket)
| ReqQueueStatus.

Definition serve `{Platform} (fuel : nat) (r : request) : M unit :=
  match r with
  | ReqSend p => send (onNotify fuel) p ;; ret tt
  | ReqCancel origin ident => cancelSending origin ident ;; ret tt
  | ReqNotify n => onNotify fuel n
  | ReqReceive p => startReceive p
  | ReqQueueStatus => getQueueStatus ;; ret tt
  end.

Fixpoint serve_all `{Platform} (fuel : nat) (l : list request) : M unit :=
  match l with
  | [] => ret tt
  | r :: rest => serve fuel r ;; serve_all fuel rest
  end.

(** The packets a list of requests submits, and the packets a list of
    calls releases to the pool, both in order. *)
Definition submitted (l : list request) : list MeshPacket :=
  flat_map (fun r => match r with ReqSend p => [p] | _ => [] end) l.

Definition released (l : list Event) : list MeshPacket :=
  flat_map (fun e => match e with EvRelease p => [p] | _ => [] end) l.

(** The packets the radio holds: the waiting ones and the one in flight. *)
Definition held (st : SimRadio) : list MeshPacket :=
  queue (txQueue st)
    ++ match sendingPacket st with Some p => [p] | None => [] end.

(** A request the dispatcher knows: every request but a notification
    whose code is none of the three. *)
Definition known `{Platform} (r : request) : Prop :=
  match r with
  | ReqNotify n => n = ISR_TX \/ n = ISR_RX \/ n = TRANSMIT_DELAY_COMPLETED
  | _ => True
  end.

(** No packet in flight and no reception under way. *)
Definition idle (st : SimRadio) : Prop :=
  sendingPacket st = None /\ isReceiving st = false.

Definition is_allocCopy (e : Event) : bool :=
  match e with EvAllocCopy _ => true | _ => false end.

Definition is_handover (e : Event) : bool :=
  match e with EvSendToPhone _ | EvDeliverToReceiver _ => true | _ => false end.

Definition is_warning (e : Event) : bool :=
  match e with EvLog LOG_LEVEL_WARN _ => true | _ => false end.

(** [n] times [TRANSMIT_DELAY_COMPLETED]. *)
Definition delays_expired `{Platform} (n : nat) : list request :=
  repeat (ReqNotify TRANSMIT_DELAY_COMPLETED) n.

(** The radio after the packet in flight has been completed, and after
    the head of the queue has been sent and completed. *)
Definition after_completion (st : SimRadio) : SimRadio :=
  {| txQueue := txQueue st; sendingPacket := None;
     isReceiving := isReceiving st; txGood := wrap32 (txGood st + 1) |}.

Definition after_transmit (st : SimRadio) : SimRadio :=
  {| txQueue := {| queue := tl (queue (txQueue st));
                   maxLen := maxLen (txQueue st) |};
     sendingPacket := None;
     isReceiving := isReceiving st; txGood := wrap32 (txGood st + 1) |}.

(** Submits in a row on any platform: the result of each [send] and the
    radio the last one leaves. *)
Fixpoint submit_each `{Platform} (fuel : nat) (l : list MeshPacket)
  (st : SimRadio) : list (outcome ErrorCode) * SimRadio :=
  match l with
  | [] => ([], st)
  | p :: rest =>
      let r := send (onNotify fuel) p st in
      let '(outs, st') := submit_each fuel rest (final r) in
      (out r :: outs, st')
  end.

(** A radio with three packets waiting, and a list of requests of every
    kind. *)
Definition three_waiting : SimRadio :=
  radio [relayed_packet 1; local_packet 2; local_packet 3] 4 None false.

Definition mixed_requests : list request :=
  [ReqSend (local_packet 4); ReqReceive (relayed_packet 5);
   ReqCancel 7 3; ReqQueueStatus; ReqNotify 2; ReqSend (local_packet 6);
   ReqNotify 1; ReqNotify 3].

Definition is_airtime (e : Event) : bool :=
  match e with EvLogAirtime _ _ => true | _ => false end.



(** * Properties *)

(** ** The monad *)

Lemma bind_run_ret {A B} (m : M A) (k : A -> M B) s a s1 e1 :
  m s = mkRun (Ret a) s1 e1 ->
  bind m k s =
  mkRun (out (k a s1)) (final (k a s1)) (e1 ++ emitted (k a s1)).
Proof. intros E. unfold bind. rewrite E. destruct (k a s1); reflexivity. Qed.

Lemma bind_run_crash {A B} (m : M A) (k : A -> M B) s f s1 e1 :
  m s = mkRun (Crash f) s1 e1 -> bind m k s = mkRun (Crash f) s1 e1.
Proof. intros E. unfold bind. rewrite E. reflexivity. Qed.

Lemma bind_run_out_of_fuel {A B} (m : M A) (k : A -> M B) s s1 e1 :
  m s = mkRun OutOfFuel s1 e1 -> bind m k s = mkRun OutOfFuel s1 e1.
Proof. intros E. unfold bind. rewrite E. reflexivity. Qed.

Lemma bind_out_ret {A B} (m : M A) (k : A -> M B) s b :
  out (bind m k s) = Ret b ->
  exists a, out (m s) = Ret a /\ out (k a (final (m s))) = Ret b.
Proof.
  unfold bind. destruct (m s) as [[a|f|] s1 e1]; cbn; try discriminate.
  destruct (k a s1) as [o s2 e2] eqn:Ek; cbn. intros Hb.
  exists a. split; [reflexivity | rewrite Ek; exact Hb].
Qed.

Lemma bind_run_pure {A B} (m : M A) (k : A -> M B) s a s1 :
  m s = mkRun (Ret a) s1 [] -> bind m k s = k a s1.
Proof. intros E. unfold bind. rewrite E. destruct (k a s1); reflexivity. Qed.

Lemma bind_get {B} (k : SimRadio -> M B) s : bind get k s = k s s.
Proof. apply bind_run_pure. reflexivity. Qed.

Lemma bind_ret {A B} (a : A) (k : A -> M B) s : bind (ret a) k s = k a s.
Proof. apply bind_run_pure. reflexivity. Qed.

Lemma bind_emit {B} (e : Event) (k : unit -> M B) s :
  bind (emit e) k s =
  mkRun (out (k tt s)) (final (k tt s)) (e :: emitted (k tt s)).
Proof. unfold bind, emit. destruct (k tt s); reflexivity. Qed.

Lemma bind_emit_run {B} (e : Event) (k : unit -> M B) s o s1 e1 :
  k tt s = mkRun o s1 e1 -> bind (emit e) k s = mkRun o s1 (e :: e1).
Proof. intros E. rewrite bind_emit, E. reflexivity. Qed.

(** One step of a run whose first call is known. *)
Ltac step_pure E := rewrite (bind_run_pure _ _ _ _ _ E).
Ltac step_ret E := rewrite (bind_run_ret _ _ _ _ _ _ E).

Section Properties.
Context `{Platform}.

(** ** Submitting a packet *)

Lemma enqueue_full p q :
  (maxLen q <= length (queue q))%nat -> enqueue p q = (false, q).
Proof.
  intros Hfull. unfold enqueue.
  destruct (Nat.ltb_spec (length (queue q)) (maxLen q)); [lia | reflexivity].
Qed.

Lemma enqueue_fails_unchanged p q q' : enqueue p q = (false, q') -> q' = q.
Proof.
  unfold enqueue. destruct (_ <? _)%nat; intros E; inversion E; reflexivity.
Qed.

Lemma txQueue_enqueue_run p st :
  txQueue_enqueue p st =
  mkRun (Ret (fst (enqueue p (txQueue st))))
    {| txQueue := snd (enqueue p (txQueue st));
       sendingPacket := sendingPacket st;
       isReceiving := isReceiving st; txGood := txGood st |} [].
Proof.
  unfold txQueue_enqueue, bind; cbn.
  destruct (enqueue p (txQueue st)); reflexivity.
Qed.

(** What [send] does when the queue refuses the packet. *)
Lemma send_refused notify p st :
  fst (enqueue p (txQueue st)) = false ->
  send notify p st =
  mkRun (Ret ERRNO_UNKNOWN) st [EvPrintPacket "enqueuing for send" p; EvRelease p].
Proof.
  intros E. unfold send.
  rewrite (bind_run_ret _ _ st tt st [EvPrintPacket "enqueuing for send" p])
    by reflexivity.
  step_ret (txQueue_enqueue_run p st).
  rewrite E. cbn.
  destruct (enqueue p (txQueue st)) as [ok q] eqn:Eq. cbn in E. subst ok.
  apply enqueue_fails_unchanged in Eq. subst q.
  destruct st; reflexivity.
Qed.

(** When the queue takes the packet, [send] can only return [ERRNO_OK]. *)
Lemma send_accepted_out notify p st r :
  fst (enqueue p (txQueue st)) = true ->
  out (send notify p st) = Ret r -> r = ERRNO_OK.
Proof.
  intros E. unfold send.
  rewrite (bind_run_ret _ _ st tt st [EvPrintPacket "enqueuing for send" p])
    by reflexivity.
  step_ret (txQueue_enqueue_run p st).
  rewrite E. cbn [negb ErrorCode_eqb out]. intros Hout.
  repeat (apply bind_out_ret in Hout; destruct Hout as (? & _ & Hout)).
  cbn in Hout. congruence.
Qed.

(** C1, as the code has it: a [send] made while the transmit queue is full
    returns [ERRNO_UNKNOWN], whatever the dispatcher would do and for
    every amount of fuel; it never returns the queue-full code. *)
Theorem send_full_returns_unknown (fuel : nat) (p : MeshPacket) (st : SimRadio) :
  (maxLen (txQueue st) <= length (queue (txQueue st)))%nat ->
  out (send (onNotify fuel) p st) = Ret ERRNO_UNKNOWN
  /\ out (send (onNotify fuel) p st) <> Ret ERRNO_QUEUE_FULL.
Proof.
  intros Hfull. rewrite send_refused.
  - split; [reflexivity | discriminate].
  - rewrite enqueue_full by exact Hfull. reflexivity.
Qed.

(** C6: a [send] that returns a code other than [ERRNO_OK] has printed the
    packet and released it to the pool, exactly once and as the last thing
    it did, and has left the object, the queue included, as it found it. *)
Theorem send_error_releases_packet (fuel : nat) (p : MeshPacket) (st : SimRadio)
    (r : ErrorCode) :
  out (send (onNotify fuel) p st) = Ret r ->
  r <> ERRNO_OK ->
  emitted (send (onNotify fuel) p st)
    = [EvPrintPacket "enqueuing for send" p; EvRelease p]
  /\ final (send (onNotify fuel) p st) = st
  /\ txQueue (final (send (onNotify fuel) p st)) = txQueue st.
Proof.
  intros Hout Hr.
  destruct (fst (enqueue p (txQueue st))) eqn:E.
  - exfalso. apply Hr. eapply send_accepted_out; eassumption.
  - rewrite send_refused by exact E. cbn. repeat split.
Qed.

(** ** Framing *)

(** [startSend], run: it marks the packet as in flight, frames a decoded
    copy and hands the copy to the phone transport. *)
Lemma startSend_run txp st :
  let p := perhapsDecode txp in
  let c := fst (frame p) in
  let enc := pb_encode_to_bytes sizeof_payload_bytes c in
  startSend txp st =
  mkRun (Ret tt)
    {| txQueue := txQueue st; sendingPacket := Some txp;
       isReceiving := isReceiving st; txGood := txGood st |}
    ([EvPrintPacket "Starting low level send" txp; EvAllocCopy txp]
       ++ (if snd (frame p) then []
           else [EvLog LOG_LEVEL_WARN
                   "Payload size is larger than compressed message allows! Sending empty payload.\n"])
       ++ [EvEncode c;
           EvSendToPhone
             (set_decoded p
                {| portnum := PortNum_SIMULATOR_APP;
                   payload :=
                     {| size := N.of_nat (length enc);
                        bytes := memcpy (bytes (payload (decoded p))) enc
                                        (N.of_nat (length enc)) |} |})]).
Proof.
  cbv zeta. unfold startSend, beginSending, packetPool_allocCopy.
  unfold bind; cbn.
  destruct (frame (perhapsDecode txp)) as [c fits] eqn:Ef.
  destruct fits; reflexivity.
Qed.

Lemma frame_oversize p :
  sizeof_Compressed_data_bytes < size (payload (decoded p)) ->
  frame p =
  ({| Compressed_portnum := portnum (decoded p);
      Compressed_data :=
        {| size := 0;
           bytes := repeat Byte.x00 (N.to_nat sizeof_Compressed_data_bytes) |} |},
   false).
Proof.
  intros Hlt. unfold frame.
  destruct (N.leb_spec (size (payload (decoded p))) sizeof_Compressed_data_bytes);
    [lia | reflexivity].
Qed.

Lemma frame_portnum p : Compressed_portnum (fst (frame p)) = portnum (decoded p).
Proof. unfold frame. destruct (_ <=? _); reflexivity. Qed.

(** ** The dispatcher *)

Lemma delay_is_not_tx : (TRANSMIT_DELAY_COMPLETED =? ISR_TX) = false.
Proof.
  pose proof notification_codes_distinct as D.
  apply andb_prop in D. destruct D as [D _].
  apply andb_prop in D. destruct D as [_ D].
  apply negb_true_iff in D. rewrite N.eqb_sym. exact D.
Qed.

Lemma delay_is_not_rx : (TRANSMIT_DELAY_COMPLETED =? ISR_RX) = false.
Proof.
  pose proof notification_codes_distinct as D.
  apply andb_prop in D. destruct D as [_ D].
  apply negb_true_iff in D. rewrite N.eqb_sym. exact D.
Qed.

(** The body of the dispatcher on [TRANSMIT_DELAY_COMPLETED]. *)
Lemma onNotify_delay_unfold fuel st :
  onNotify (S fuel) TRANSMIT_DELAY_COMPLETED st =
  onNotify_body (onNotify fuel) TRANSMIT_DELAY_COMPLETED st.
Proof. reflexivity. Qed.

(** With a packet at the head of the queue and none in flight the
    dispatcher transmits the head: it frames it, logs the airtime, waits
    for the frame to be sent and completes the send. *)
Lemma onNotify_transmits fuel st txp rest :
  queue (txQueue st) = txp :: rest ->
  sendingPacket st = None ->
  onNotify (S fuel) TRANSMIT_DELAY_COMPLETED st =
  mkRun (Ret tt)
    {| txQueue := {| queue := rest; maxLen := maxLen (txQueue st) |};
       sendingPacket := None;
       isReceiving := isReceiving st;
       txGood := wrap32 (txGood st + 1) |}
    ([EvLog LOG_LEVEL_DEBUG "delay done\n"]
       ++ emitted (startSend txp st)
       ++ [EvLogAirtime TX_LOG (getPacketTime txp);
           EvDelay (Msec (getPacketTime txp));
           EvPrintPacket "Completed sending" txp;
           EvRelease txp]).
Proof.
  intros Hq Hsp. rewrite onNotify_delay_unfold. unfold onNotify_body.
  rewrite delay_is_not_tx, delay_is_not_rx, N.eqb_refl.
  pose proof (startSend_run txp) as R. cbv zeta in R.
  destruct st as [[q cap] sp rx good]. cbn in Hq, Hsp. subst q sp.
  unfold txQueue_empty, canSendImmediately, isChannelActive,
    isActivelyReceiving, txQueue_dequeue, completeSending.
  destruct rx; unfold bind; cbn -[startSend]; rewrite !R; cbn;
    rewrite <- ?app_assoc; reflexivity.
Qed.

(** C2: when the decoded payload is larger than the envelope's buffer,
    [startSend] logs a warning, encodes an envelope whose payload has
    size 0 and whose buffer holds no byte of the packet, hands the framed
    copy to the phone transport and returns; a dispatcher that finds this
    packet at the head of the queue carries the transmission through:
    it charges the airtime of the packet and returns. *)
Theorem startSend_oversize_sends_empty (fuel : nat) (txp : MeshPacket)
    (rest : list MeshPacket) (st : SimRadio) :
  sizeof_Compressed_data_bytes < size (payload (decoded (perhapsDecode txp))) ->
  queue (txQueue st) = txp :: rest ->
  sendingPacket st = None ->
  (exists c p',
     out (startSend txp st) = Ret tt
     /\ emitted (startSend txp st) =
          [EvPrintPacket "Starting low level send" txp; EvAllocCopy txp;
           EvLog LOG_LEVEL_WARN
             "Payload size is larger than compressed message allows! Sending empty payload.\n";
           EvEncode c; EvSendToPhone p']
     /\ size (Compressed_data c) = 0
     /\ bytes (Compressed_data c)
          = repeat Byte.x00 (N.to_nat sizeof_Compressed_data_bytes)
     /\ size (payload (decoded p'))
          = N.of_nat (length (pb_encode_to_bytes sizeof_payload_bytes c)))
  /\ out (onNotify (S fuel) TRANSMIT_DELAY_COMPLETED st) = Ret tt
  /\ In (EvLogAirtime TX_LOG (getPacketTime txp))
        (emitted (onNotify (S fuel) TRANSMIT_DELAY_COMPLETED st)).
Proof.
  intros Hbig Hq Hsp. split.
  - pose proof (startSend_run txp st) as R. cbv zeta in R.
    rewrite (frame_oversize _ Hbig) in R. cbn [fst snd] in R.
    rewrite R. cbn [out emitted app].
    eexists. eexists. repeat split.
  - rewrite (onNotify_transmits fuel st txp rest Hq Hsp).
    cbn [out emitted]. split; [reflexivity|].
    apply in_or_app; right; apply in_or_app; right; cbn; auto.
Qed.

(** C9: [startSend] always returns; the envelope it encodes carries the
    port of the decoded packet; the copy handed to the phone transport
    carries [PortNum_SIMULATOR_APP] instead, with the encoded envelope as
    its payload, and nothing is handed to the transport before that. *)
Theorem startSend_port_tags (txp : MeshPacket) (st : SimRadio) :
  exists pre c p',
    out (startSend txp st) = Ret tt
    /\ emitted (startSend txp st) = pre ++ [EvEncode c; EvSendToPhone p']
    /\ (forall q, ~ In (EvSendToPhone q) pre)
    /\ Compressed_portnum c = portnum (decoded (perhapsDecode txp))
    /\ portnum (decoded p') = PortNum_SIMULATOR_APP
    /\ size (payload (decoded p'))
         = N.of_nat (length (pb_encode_to_bytes sizeof_payload_bytes c))
    /\ firstn (length (pb_encode_to_bytes sizeof_payload_bytes c))
              (bytes (payload (decoded p')))
         = pb_encode_to_bytes sizeof_payload_bytes c.
Proof.
  pose proof (startSend_run txp st) as R. cbv zeta in R. rewrite R.
  cbn [out emitted].
  eexists. eexists. eexists. split; [reflexivity|].
  split; [rewrite app_assoc; reflexivity|].
  split.
  { intros q Hin. apply in_app_or in Hin. destruct Hin as [Hin|Hin].
    - cbn in Hin. intuition discriminate.
    - destruct (snd (frame (perhapsDecode txp))); cbn in Hin;
        intuition discriminate. }
  split; [apply frame_portnum|].
  split; [reflexivity|].
  split; [reflexivity|].
  cbn. unfold memcpy. rewrite Nat2N.id.
  rewrite firstn_app, firstn_firstn, Nat.min_id, firstn_all.
  rewrite Nat.sub_diag. cbn. apply app_nil_r.
Qed.

(** ** Arming the transmit delay *)

Lemma txQueue_empty_run st :
  txQueue_empty st = mkRun (Ret (empty (txQueue st))) st [].
Proof. unfold txQueue_empty. rewrite bind_get. reflexivity. Qed.

Lemma txQueue_getFront_run st :
  txQueue_getFront st = mkRun (Ret (getFront (txQueue st))) st [].
Proof. unfold txQueue_getFront. rewrite bind_get. reflexivity. Qed.

Lemma startTransmitTimer_nonempty notify withDelay st p rest :
  queue (txQueue st) = p :: rest ->
  startTransmitTimer notify withDelay st =
  (delay (if negb withDelay then Msec 1 else TxDelayMsec) ;;
   notify TRANSMIT_DELAY_COMPLETED) st.
Proof.
  intros Hq. unfold startTransmitTimer.
  step_pure (txQueue_empty_run st).
  unfold empty. rewrite Hq. reflexivity.
Qed.

Lemma startTransmitTimerSNR_nonempty notify snr st p rest :
  queue (txQueue st) = p :: rest ->
  startTransmitTimerSNR notify snr st =
  (delay (TxDelayMsecWeighted snr) ;; notify TRANSMIT_DELAY_COMPLETED) st.
Proof.
  intros Hq. unfold startTransmitTimerSNR.
  step_pure (txQueue_empty_run st).
  unfold empty. rewrite Hq. reflexivity.
Qed.

Lemma setTransmitDelay_front notify st p :
  getFront (txQueue st) = Some p ->
  setTransmitDelay notify st =
  (if PrimFloat.eqb (rx_snr p) 0 && (rx_rssi p =? 0)%Z
   then startTransmitTimer notify true
   else LOG_DEBUG "rx_snr found. hop_limit:%d rx_snr:%f\n" ;;
        startTransmitTimerSNR notify (rx_snr p)) st.
Proof.
  intros Hf. unfold setTransmitDelay.
  step_pure (txQueue_getFront_run st).
  rewrite Hf. reflexivity.
Qed.

(** [setTransmitDelay] on a queue with head [p], as one run. *)
Lemma setTransmitDelay_run notify st p rest :
  queue (txQueue st) = p :: rest ->
  let r := notify TRANSMIT_DELAY_COMPLETED st in
  setTransmitDelay notify st =
  mkRun (out r) (final r)
    (if PrimFloat.eqb (rx_snr p) 0 && (rx_rssi p =? 0)%Z
     then EvDelay TxDelayMsec :: emitted r
     else EvLog LOG_LEVEL_DEBUG "rx_snr found. hop_limit:%d rx_snr:%f\n"
            :: EvDelay (TxDelayMsecWeighted (rx_snr p)) :: emitted r).
Proof.
  intros Hq r.
  assert (Hf : getFront (txQueue st) = Some p)
    by (unfold getFront; rewrite Hq; reflexivity).
  rewrite (setTransmitDelay_front _ _ _ Hf).
  destruct (PrimFloat.eqb (rx_snr p) 0 && (rx_rssi p =? 0)%Z).
  - rewrite (startTransmitTimer_nonempty _ _ _ _ _ Hq). cbn [negb].
    unfold delay. rewrite bind_emit. reflexivity.
  - unfold LOG_DEBUG. rewrite bind_emit.
    rewrite (startTransmitTimerSNR_nonempty _ _ _ _ _ Hq).
    unfold delay. rewrite bind_emit. reflexivity.
Qed.

(** C3: with [p] at the head of the queue, [setTransmitDelay] takes the
    path of [startTransmitTimer(true)] and sleeps for a delay drawn by
    [getTxDelayMsec] when both signal metrics of [p] are zero, and takes
    the path of [startTransmitTimerSNR(p->rx_snr)] and sleeps for the
    delay weighted by that SNR when the SNR is not zero; in both cases the
    delay then expires into the dispatcher. *)
Theorem setTransmitDelay_paths (notify : N -> M unit) (st : SimRadio)
    (p : MeshPacket) :
  getFront (txQueue st) = Some p ->
  (PrimFloat.eqb (rx_snr p) 0 = true -> rx_rssi p = 0%Z ->
     setTransmitDelay notify st = startTransmitTimer notify true st
     /\ emitted (setTransmitDelay notify st)
          = EvDelay TxDelayMsec
              :: emitted (notify TRANSMIT_DELAY_COMPLETED st))
  /\ (PrimFloat.eqb (rx_snr p) 0 = false ->
     setTransmitDelay notify st
       = (LOG_DEBUG "rx_snr found. hop_limit:%d rx_snr:%f\n" ;;
          startTransmitTimerSNR notify (rx_snr p)) st
     /\ emitted (setTransmitDelay notify st)
          = EvLog LOG_LEVEL_DEBUG "rx_snr found. hop_limit:%d rx_snr:%f\n"
              :: EvDelay (TxDelayMsecWeighted (rx_snr p))
              :: emitted (notify TRANSMIT_DELAY_COMPLETED st)).
Proof.
  intros Hfront.
  pose proof (setTransmitDelay_front notify st p Hfront) as F.
  unfold getFront in Hfront.
  destruct (queue (txQueue st)) as [|p0 rest] eqn:Hq; [discriminate|].
  cbn in Hfront. inversion Hfront; subst p0.
  pose proof (setTransmitDelay_run notify st p rest Hq) as R. cbv zeta in R.
  split.
  - intros Hsnr Hrssi. rewrite Hsnr, Hrssi in F, R. split; assumption || (rewrite R; reflexivity).
  - intros Hsnr. rewrite Hsnr in F, R. split; assumption || (rewrite R; reflexivity).
Qed.

(** ** Delay expiry while busy *)

Lemma canSendImmediately_run st :
  canSendImmediately st =
  match sendingPacket st with
  | Some _ => mkRun (Ret false) st [EvLog LOG_LEVEL_WARN "Can not send yet, busyTx\n"]
  | None => mkRun (Ret true) st []
  end.
Proof.
  unfold canSendImmediately. rewrite bind_get.
  unfold isActivelyReceiving.
  assert (E : (if isReceiving st then ret false else ret false) = @ret bool false)
    by (destruct (isReceiving st); reflexivity).
  rewrite E, bind_ret.
  destruct (sendingPacket st); reflexivity.
Qed.

(** The two channel-sense queries of the simulator answer [false], so
    the dispatcher is held back exactly when a packet is in flight. *)
Lemma busy_iff_in_flight st :
  out (canSendImmediately st) = Ret false \/ out (isChannelActive st) = Ret true
  <-> sendingPacket st <> None.
Proof.
  rewrite canSendImmediately_run. unfold isChannelActive.
  destruct (sendingPacket st); cbn; split; intros Hx.
  - discriminate.
  - left; reflexivity.
  - destruct Hx; discriminate.
  - congruence.
Qed.

(** The body of the dispatcher on [TRANSMIT_DELAY_COMPLETED] with a
    waiting packet and a packet in flight: it logs and re-arms. *)
Lemma onNotify_body_busy notify st head rest inflight :
  queue (txQueue st) = head :: rest ->
  sendingPacket st = Some inflight ->
  let r := notify TRANSMIT_DELAY_COMPLETED st in
  onNotify_body notify TRANSMIT_DELAY_COMPLETED st =
  mkRun (out r) (final r)
    (EvLog LOG_LEVEL_DEBUG "delay done\n"
       :: EvLog LOG_LEVEL_WARN "Can not send yet, busyTx\n"
       :: (if PrimFloat.eqb (rx_snr head) 0 && (rx_rssi head =? 0)%Z
           then EvDelay TxDelayMsec :: emitted r
           else EvLog LOG_LEVEL_DEBUG "rx_snr found. hop_limit:%d rx_snr:%f\n"
                  :: EvDelay (TxDelayMsecWeighted (rx_snr head))
                  :: emitted r)).
Proof.
  intros Hq Hsp r. unfold onNotify_body.
  rewrite delay_is_not_tx, delay_is_not_rx, N.eqb_refl.
  unfold LOG_DEBUG at 1. apply bind_emit_run.
  step_pure (txQueue_empty_run st).
  unfold empty. rewrite Hq. cbn [negb].
  assert (C : canSendImmediately st =
              mkRun (Ret false) st
                [EvLog LOG_LEVEL_WARN "Can not send yet, busyTx\n"])
    by (rewrite canSendImmediately_run, Hsp; reflexivity).
  step_ret C. cbn [negb].
  pose proof (setTransmitDelay_run notify st head rest Hq) as R.
  cbv zeta in R. rewrite R. subst r. reflexivity.
Qed.

(** However much fuel there is, the dispatcher is still re-arming when it
    runs out: the object is untouched and only log lines and delays for
    the head packet have been produced. *)
Lemma onNotify_busy_loops fuel st head rest inflight :
  queue (txQueue st) = head :: rest ->
  sendingPacket st = Some inflight ->
  let d := if PrimFloat.eqb (rx_snr head) 0 && (rx_rssi head =? 0)%Z
           then TxDelayMsec else TxDelayMsecWeighted (rx_snr head) in
  let r := onNotify fuel TRANSMIT_DELAY_COMPLETED st in
  out r = OutOfFuel /\ final r = st /\ Forall (rearms_only d) (emitted r).
Proof.
  intros Hq Hsp d. induction fuel as [|fuel IH]; intros r.
  - subst r. cbn. repeat split. constructor.
  - subst r. rewrite onNotify_delay_unfold.
    rewrite (onNotify_body_busy _ st head rest inflight Hq Hsp).
    cbv zeta in IH. destruct IH as (Ho & Hf & Hall).
    cbn [out final emitted]. repeat split; try assumption.
    constructor; [exact I|]. constructor; [exact I|].
    subst d. destruct (PrimFloat.eqb (rx_snr head) 0 && (rx_rssi head =? 0)%Z).
    + constructor; [reflexivity | exact Hall].
    + constructor; [exact I|]. constructor; [reflexivity | exact Hall].
Qed.

Lemma count_rearms_only (f : Event -> bool) (d : DelayMsec) (l : list Event) :
  (forall e, rearms_only d e -> f e = false) ->
  Forall (rearms_only d) l -> count f l = 0%nat.
Proof.
  intros Hf0 Hall. unfold count.
  induction Hall as [|e l He _ IHl]; [reflexivity|].
  cbn. rewrite (Hf0 e He). exact IHl.
Qed.

(** C4, as the code has it.  A [TRANSMIT_DELAY_COMPLETED] that finds a
    packet waiting while the radio cannot send immediately, or while the
    channel is sensed active, finds a packet in flight, the only busy
    condition the simulator can report.  The dispatcher then arms the
    delay [setTransmitDelay] computes from the head of the queue, makes
    no call other than log lines and such delays (nothing is framed,
    charged as airtime or released), leaves the object and its queue as
    they were, and is still re-arming when the fuel ends.  The
    [isReceiving] flag does not hold it back: with no packet in flight
    the head of the queue is transmitted whatever the flag says. *)
Theorem delay_expired_busy_rearms (fuel : nat) (st : SimRadio)
    (head : MeshPacket) (rest : list MeshPacket) :
  queue (txQueue st) = head :: rest ->
  out (canSendImmediately st) = Ret false \/ out (isChannelActive st) = Ret true ->
  let d := if PrimFloat.eqb (rx_snr head) 0 && (rx_rssi head =? 0)%Z
           then TxDelayMsec else TxDelayMsecWeighted (rx_snr head) in
  let r := onNotify (S fuel) TRANSMIT_DELAY_COMPLETED st in
  sendingPacket st <> None
  /\ In (EvDelay d) (emitted r)
  /\ Forall (rearms_only d) (emitted r)
  /\ count is_sendToPhone (emitted r) = 0%nat
  /\ count is_tx_airtime (emitted r) = 0%nat
  /\ final r = st
  /\ out r = OutOfFuel
  /\ (forall (st' : SimRadio) (p : MeshPacket) (rest' : list MeshPacket),
        queue (txQueue st') = p :: rest' ->
        sendingPacket st' = None ->
        let r' := onNotify (S fuel) TRANSMIT_DELAY_COMPLETED st' in
        out r' = Ret tt
        /\ count is_sendToPhone (emitted r') = 1%nat
        /\ queue (txQueue (final r')) = rest'
        /\ isReceiving (final r') = isReceiving st').
Proof.
  intros Hq Hbusy d r.
  apply busy_iff_in_flight in Hbusy.
  destruct (sendingPacket st) as [inflight|] eqn:Hsp; [|congruence].
  pose proof (onNotify_busy_loops (S fuel) st head rest inflight Hq Hsp) as L.
  cbv zeta in L. fold d in L. fold r in L. destruct L as (Ho & Hf & Hall).
  assert (Hin : In (EvDelay d) (emitted r)).
  { subst r. rewrite onNotify_delay_unfold.
    rewrite (onNotify_body_busy _ st head rest inflight Hq Hsp).
    cbn [emitted]. subst d.
    destruct (PrimFloat.eqb (rx_snr head) 0 && (rx_rssi head =? 0)%Z);
      cbn; auto. }
  assert (Hnone : forall f, (forall e, rearms_only d e -> f e = false) ->
                            count f (emitted r) = 0%nat)
    by (intros f Hf0; exact (count_rearms_only f d _ Hf0 Hall)).
  split; [discriminate|].
  split; [exact Hin|].
  split; [exact Hall|].
  split; [apply Hnone; intros [] He; cbn in *; try reflexivity; contradiction|].
  split; [apply Hnone; intros [] He; cbn in *; try reflexivity; contradiction|].
  split; [exact Hf|].
  split; [exact Ho|].
  intros st' p rest' Hq' Hsp' r'. subst r'.
  rewrite (onNotify_transmits fuel st' p rest' Hq' Hsp').
  cbn [out final emitted txQueue queue isReceiving].
  repeat split.
  pose proof (startSend_run p st') as R. cbv zeta in R. rewrite R.
  cbn [emitted]. unfold count.
  destruct (snd (frame (perhapsDecode p))); reflexivity.
Qed.

(** ** One local packet, end to end *)

(** A [TRANSMIT_DELAY_COMPLETED] that finds the queue empty only logs. *)
Lemma onNotify_delay_empty fuel st :
  queue (txQueue st) = [] ->
  onNotify (S fuel) TRANSMIT_DELAY_COMPLETED st =
  mkRun (Ret tt) st [EvLog LOG_LEVEL_DEBUG "delay done\n"].
Proof.
  intros Hq. rewrite onNotify_delay_unfold. unfold onNotify_body.
  rewrite delay_is_not_tx, delay_is_not_rx, N.eqb_refl.
  unfold LOG_DEBUG. apply bind_emit_run.
  step_pure (txQueue_empty_run st).
  unfold empty. rewrite Hq. reflexivity.
Qed.

Lemma enqueue_room p q :
  (length (queue q) < maxLen q)%nat ->
  enqueue p q = (true, {| queue := queue q ++ [p]; maxLen := maxLen q |}).
Proof.
  intros Hroom. unfold enqueue.
  destruct (Nat.ltb_spec (length (queue q)) (maxLen q)); [reflexivity | lia].
Qed.

(** [send] when the queue takes the packet: the delay is armed for the
    head of the queue and the rest is the dispatcher's run. *)
Lemma send_accepted notify p st :
  (length (queue (txQueue st)) < maxLen (txQueue st))%nat ->
  let queued := {| txQueue := {| queue := queue (txQueue st) ++ [p];
                                 maxLen := maxLen (txQueue st) |};
                   sendingPacket := sendingPacket st;
                   isReceiving := isReceiving st;
                   txGood := txGood st |} in
  send notify p st =
  mkRun (match out (setTransmitDelay notify queued) with
         | Ret _ => Ret ERRNO_OK
         | Crash f => Crash f
         | OutOfFuel => OutOfFuel
         end)
        (final (setTransmitDelay notify queued))
        (EvPrintPacket "enqueuing for send" p
           :: EvLog LOG_LEVEL_DEBUG "Set random delay before transmitting.\n"
           :: emitted (setTransmitDelay notify queued)).
Proof.
  intros Hroom queued. unfold send.
  unfold printPacket. apply bind_emit_run.
  step_pure (txQueue_enqueue_run p st).
  rewrite (enqueue_room p _ Hroom). cbn [fst snd negb ErrorCode_eqb].
  fold queued. unfold LOG_DEBUG. apply bind_emit_run.
  unfold bind. destruct (setTransmitDelay notify queued) as [[[]|f|] s1 e1];
    cbn; rewrite ?app_nil_r; reflexivity.
Qed.

Lemma count_app f l1 l2 : count f (l1 ++ l2) = (count f l1 + count f l2)%nat.
Proof. unfold count. rewrite filter_app, length_app. reflexivity. Qed.

Lemma startSend_counts txp st :
  count is_tx_airtime (emitted (startSend txp st)) = 0%nat
  /\ count is_release (emitted (startSend txp st)) = 0%nat
  /\ count is_sendToPhone (emitted (startSend txp st)) = 1%nat.
Proof.
  pose proof (startSend_run txp st) as R. cbv zeta in R. rewrite R.
  cbn [emitted]. unfold count.
  destruct (snd (frame (perhapsDecode txp))); repeat split.
Qed.

(** C5: a packet without signal metrics, submitted to a radio whose
    queue is empty and which has no packet in flight, is accepted; [send]
    arms the uniform random delay, and the one [TRANSMIT_DELAY_COMPLETED]
    that follows, dispatched on the radio with that packet queued,
    returns after exactly one [logAirtime(TX_LOG, ...)], for the packet's
    airtime, and exactly one release, of that packet, and leaves the
    queue empty with nothing in flight.  A further
    [TRANSMIT_DELAY_COMPLETED] finds nothing to do. *)
Theorem local_packet_sent_after_one_delay (fuel : nat) (p : MeshPacket)
    (st : SimRadio) :
  queue (txQueue st) = [] ->
  (0 < maxLen (txQueue st))%nat ->
  sendingPacket st = None ->
  PrimFloat.eqb (rx_snr p) 0 = true ->
  rx_rssi p = 0%Z ->
  let queued := {| txQueue := {| queue := [p]; maxLen := maxLen (txQueue st) |};
                   sendingPacket := None;
                   isReceiving := isReceiving st;
                   txGood := txGood st |} in
  let expiry := onNotify (S fuel) TRANSMIT_DELAY_COMPLETED queued in
  let r := send (onNotify (S fuel)) p st in
  out r = Ret ERRNO_OK
  /\ emitted r =
       [EvPrintPacket "enqueuing for send" p;
        EvLog LOG_LEVEL_DEBUG "Set random delay before transmitting.\n";
        EvDelay TxDelayMsec] ++ emitted expiry
  /\ final r = final expiry
  /\ out expiry = Ret tt
  /\ count is_tx_airtime (emitted expiry) = 1%nat
  /\ In (EvLogAirtime TX_LOG (getPacketTime p)) (emitted expiry)
  /\ count is_release (emitted expiry) = 1%nat
  /\ In (EvRelease p) (emitted expiry)
  /\ queue (txQueue (final expiry)) = []
  /\ sendingPacket (final expiry) = None
  /\ txGood (final expiry) = wrap32 (txGood st + 1)
  /\ onNotify (S fuel) TRANSMIT_DELAY_COMPLETED (final r)
       = mkRun (Ret tt) (final r) [EvLog LOG_LEVEL_DEBUG "delay done\n"].
Proof.
  intros Hq Hcap Hsp Hsnr Hrssi queued expiry r.
  assert (Hroom : (length (queue (txQueue st)) < maxLen (txQueue st))%nat)
    by (rewrite Hq; exact Hcap).
  pose proof (send_accepted (onNotify (S fuel)) p st Hroom) as S0.
  cbv zeta in S0. rewrite Hq, Hsp in S0. cbn [app] in S0. fold queued in S0.
  pose proof (setTransmitDelay_run (onNotify (S fuel)) queued p []
                eq_refl) as D.
  cbv zeta in D. fold expiry in D. rewrite Hsnr, Hrssi in D.
  cbn [andb Z.eqb] in D. rewrite D in S0. cbn [out final emitted] in S0.
  pose proof (onNotify_transmits fuel queued p [] eq_refl eq_refl) as T.
  fold expiry in T.
  pose proof (startSend_counts p queued) as (Ca & Cr & _).
  subst r. rewrite S0. cbn [out final emitted]. rewrite T.
  cbn [out final emitted txQueue queue sendingPacket txGood].
  rewrite !count_app, Ca, Cr.
  repeat split; try reflexivity.
  - apply in_or_app; right. apply in_or_app; right. cbn; auto.
  - apply in_or_app; right. apply in_or_app; right. cbn; auto.
  - apply onNotify_delay_empty. reflexivity.
Qed.

(** ** Cancelling *)

Lemma remove_first_spec origin ident l :
  (exists l1 p l2,
      l = l1 ++ p :: l2
      /\ matches origin ident p = true
      /\ (forall x, In x l1 -> matches origin ident x = false)
      /\ remove_first origin ident l = (Some p, l1 ++ l2))
  \/ ((forall x, In x l -> matches origin ident x = false)
      /\ remove_first origin ident l = (None, l)).
Proof.
  induction l as [|a l IH].
  - right. split; [intros x []| reflexivity].
  - cbn [remove_first]. destruct (matches origin ident a) eqn:Ma.
    + left. exists [], a, l. repeat split; [exact Ma | intros x []].
    + destruct IH as [(l1 & p & l2 & El & Mp & Hno & Er) | (Hno & Er)].
      * left. exists (a :: l1), p, l2. rewrite Er, El.
        repeat split; [exact Mp|].
        intros x [<-|Hx]; [exact Ma | exact (Hno x Hx)].
      * right. rewrite Er. split; [|reflexivity].
        intros x [<-|Hx]; [exact Ma | exact (Hno x Hx)].
Qed.

Lemma txQueue_remove_run origin ident st :
  txQueue_remove origin ident st =
  mkRun (Ret (fst (remove_first origin ident (queue (txQueue st)))))
    {| txQueue := {| queue := snd (remove_first origin ident (queue (txQueue st)));
                     maxLen := maxLen (txQueue st) |};
       sendingPacket := sendingPacket st;
       isReceiving := isReceiving st; txGood := txGood st |} [].
Proof.
  unfold txQueue_remove. rewrite bind_get. unfold remove.
  destruct (remove_first origin ident (queue (txQueue st))); reflexivity.
Qed.

(** C7: [cancelSending] always returns and never touches the packet in
    flight, the capacity, the receive flag or the counter.  Either the
    waiting queue holds a packet with that origin and id: then the first
    such packet, and only it, leaves the queue, the others keep their
    order, that packet is released to the pool and the result is [true].
    Or the queue holds none, whatever is in flight: then the object is
    unchanged, nothing is released and the result is [false]. *)
Theorem cancelSending_removes_one_waiting (origin ident : N) (st : SimRadio) :
  let r := cancelSending origin ident st in
  sendingPacket (final r) = sendingPacket st
  /\ maxLen (txQueue (final r)) = maxLen (txQueue st)
  /\ isReceiving (final r) = isReceiving st
  /\ txGood (final r) = txGood st
  /\ ((exists l1 p l2,
         queue (txQueue st) = l1 ++ p :: l2
         /\ matches origin ident p = true
         /\ (forall x, In x l1 -> matches origin ident x = false)
         /\ out r = Ret true
         /\ queue (txQueue (final r)) = l1 ++ l2
         /\ emitted r =
              [EvRelease p;
               EvLog LOG_LEVEL_DEBUG "cancelSending id=0x%x, removed=%d\n"])
      \/ ((forall x, In x (queue (txQueue st)) -> matches origin ident x = false)
          /\ out r = Ret false
          /\ final r = st
          /\ emitted r =
               [EvLog LOG_LEVEL_DEBUG "cancelSending id=0x%x, removed=%d\n"])).
Proof.
  intros r. subst r. unfold cancelSending.
  step_pure (txQueue_remove_run origin ident st).
  destruct (remove_first_spec origin ident (queue (txQueue st)))
    as [(l1 & p & l2 & El & Mp & Hno & Er) | (Hno & Er)]; rewrite Er;
    cbn [fst snd]; unfold bind; cbn.
  - repeat split. left. exists l1, p, l2. repeat split; assumption.
  - repeat split. right. repeat split; try assumption.
    destruct st as [[q cap] sp rx good]; reflexivity.
Qed.

(** ** Fatal assertions *)

(** C8: a notification that is none of [ISR_TX], [ISR_RX] and
    [TRANSMIT_DELAY_COMPLETED] makes the dispatcher fail its assertion
    before it has done anything, and [handleReceiveInterrupt] on a radio
    whose [isReceiving] flag is clear fails its assertion right after its
    log line, before the flag, the pool, the airtime or the router are
    touched.  A failed assertion ends every enclosing call. *)
Theorem unexpected_event_or_receive_asserts (fuel : nat) (n : N)
    (st st' : SimRadio) (p : MeshPacket) :
  n <> ISR_TX -> n <> ISR_RX -> n <> TRANSMIT_DELAY_COMPLETED ->
  isReceiving st' = false ->
  onNotify (S fuel) n st = mkRun (Crash AssertFailed) st []
  /\ handleReceiveInterrupt p st' =
       mkRun (Crash AssertFailed) st'
         [EvLog LOG_LEVEL_DEBUG "HANDLE RECEIVE INTERRUPT\n"]
  /\ (forall (B : Type) (k : unit -> M B),
        out (bind (onNotify (S fuel) n) k st) = Crash AssertFailed
        /\ out (bind (handleReceiveInterrupt p) k st') = Crash AssertFailed).
Proof.
  intros Htx Hrx Hdelay Hflag.
  assert (E1 : onNotify (S fuel) n st = mkRun (Crash AssertFailed) st []).
  { cbn [onNotify]. unfold onNotify_body.
    apply N.eqb_neq in Htx, Hrx, Hdelay. rewrite Htx, Hrx, Hdelay.
    reflexivity. }
  assert (E2 : handleReceiveInterrupt p st' =
               mkRun (Crash AssertFailed) st'
                 [EvLog LOG_LEVEL_DEBUG "HANDLE RECEIVE INTERRUPT\n"]).
  { unfold handleReceiveInterrupt, LOG_DEBUG. apply bind_emit_run.
    rewrite bind_get, Hflag. reflexivity. }
  split; [exact E1|]. split; [exact E2|].
  intros B k. split.
  - rewrite (bind_run_crash _ _ _ _ _ _ E1). reflexivity.
  - rewrite (bind_run_crash _ _ _ _ _ _ E2). reflexivity.
Qed.

(** ** Transmit completion *)

Lemma completeSending_in_flight st p :
  sendingPacket st = Some p ->
  completeSending st =
  mkRun (Ret tt)
    {| txQueue := txQueue st; sendingPacket := None;
       isReceiving := isReceiving st; txGood := wrap32 (txGood st + 1) |}
    [EvPrintPacket "Completed sending" p; EvRelease p].
Proof.
  intros Hsp. unfold completeSending. rewrite bind_get, Hsp.
  unfold bind; cbn. reflexivity.
Qed.


End Properties.

(** The fifth submit of C1's scenario. *)
Lemma send_full_returns_unknown_witness :
  (maxLen (txQueue full4) <= length (queue (txQueue full4)))%nat
  /\ out (send (onNotify 5) (local_packet 5) full4) = Ret ERRNO_UNKNOWN.
Proof.
  split; [cbn; lia |].
  apply (send_full_returns_unknown 5 (local_packet 5) full4). cbn; lia.
Defined.

(** C1 as the spec words it fails: with 4 packets in a queue of capacity 4
    the fifth [send] does not return the queue-full code. *)
Lemma send_full_not_queue_full :
  (maxLen (txQueue full4) <= length (queue (txQueue full4)))%nat
  /\ out (send (onNotify 5) (local_packet 5) full4) <> Ret ERRNO_QUEUE_FULL.
Proof.
  split; [cbn; lia |].
  vm_compute. discriminate.
Qed.

Lemma send_error_releases_packet_witness :
  emitted (send (onNotify 5) (local_packet 5) full4)
    = [EvPrintPacket "enqueuing for send" (local_packet 5);
       EvRelease (local_packet 5)]
  /\ final (send (onNotify 5) (local_packet 5) full4) = full4
  /\ txQueue (final (send (onNotify 5) (local_packet 5) full4)) = txQueue full4.
Proof.
  apply (send_error_releases_packet 5 (local_packet 5) full4 ERRNO_UNKNOWN).
  - vm_compute. reflexivity.
  - discriminate.
Defined.

(** On an idle radio the scenario of C1 never fills the queue: every
    submit is transmitted before [send] returns, so five submits in a row
    all return [ERRNO_OK] and leave the queue empty. *)
Example five_submits_on_idle_radio :
  submit_all 3 (map local_packet [1; 2; 3; 4; 5]) idle4
  = (repeat (Ret ERRNO_OK) 5,
     {| txQueue := {| queue := []; maxLen := 4 |}; sendingPacket := None;
        isReceiving := false; txGood := 5 |}).
Proof. vm_compute. reflexivity. Qed.

Lemma startSend_oversize_sends_empty_witness :
  sizeof_Compressed_data_bytes < size (payload (decoded (perhapsDecode big_packet)))
  /\ out (onNotify 1 TRANSMIT_DELAY_COMPLETED big_waiting) = Ret tt
  /\ In (EvLogAirtime TX_LOG (getPacketTime big_packet))
        (emitted (onNotify 1 TRANSMIT_DELAY_COMPLETED big_waiting)).
Proof.
  split; [vm_compute; reflexivity|].
  pose proof (startSend_oversize_sends_empty 0 big_packet [] big_waiting) as W.
  destruct W as (_ & Ho & Ha);
    [vm_compute; reflexivity | reflexivity | reflexivity |].
  split; [exact Ho | exact Ha].
Defined.

(** The envelope of the oversize packet, as the simulator encodes it. *)
Example oversize_envelope_is_empty :
  emitted (startSend big_packet big_waiting)
  = [EvPrintPacket "Starting low level send" big_packet;
     EvAllocCopy big_packet;
     EvLog LOG_LEVEL_WARN
       "Payload size is larger than compressed message allows! Sending empty payload.\n";
     EvEncode {| Compressed_portnum := 1;
                 Compressed_data := {| size := 0; bytes := repeat Byte.x00 237 |} |};
     EvSendToPhone
       (set_decoded big_packet
          {| portnum := 69;
             payload := {| size := 0; bytes := repeat Byte.x2a 300 |} |})].
Proof. vm_compute. reflexivity. Qed.

Lemma setTransmitDelay_paths_witness :
  getFront (txQueue (radio [local_packet 1] 4 None false)) = Some (local_packet 1)
  /\ getFront (txQueue (radio [relayed_packet 2] 4 None false))
       = Some (relayed_packet 2)
  /\ setTransmitDelay (onNotify 1) (radio [local_packet 1] 4 None false)
       = startTransmitTimer (onNotify 1) true (radio [local_packet 1] 4 None false)
  /\ setTransmitDelay (onNotify 1) (radio [relayed_packet 2] 4 None false)
       = (LOG_DEBUG "rx_snr found. hop_limit:%d rx_snr:%f\n" ;;
          startTransmitTimerSNR (onNotify 1) (rx_snr (relayed_packet 2)))
           (radio [relayed_packet 2] 4 None false).
Proof.
  split; [reflexivity|]. split; [reflexivity|]. split.
  - apply (setTransmitDelay_paths (onNotify 1)
             (radio [local_packet 1] 4 None false) (local_packet 1));
      reflexivity.
  - apply (setTransmitDelay_paths (onNotify 1)
             (radio [relayed_packet 2] 4 None false) (relayed_packet 2));
      reflexivity.
Defined.

Lemma delay_expired_busy_rearms_witness :
  queue (txQueue busy_tx) = [relayed_packet 2]
  /\ out (canSendImmediately busy_tx) = Ret false
  /\ In (EvDelay (TxDelayMsecWeighted 10%float))
        (emitted (onNotify 3 TRANSMIT_DELAY_COMPLETED busy_tx))
  /\ final (onNotify 3 TRANSMIT_DELAY_COMPLETED busy_tx) = busy_tx.
Proof.
  split; [reflexivity|]. split; [reflexivity|].
  pose proof (delay_expired_busy_rearms 2 busy_tx (relayed_packet 2) []) as W.
  destruct W as (_ & Hin & _ & _ & _ & Hf & _);
    [reflexivity | left; reflexivity |].
  split; [exact Hin | exact Hf].
Defined.

(** C4 as the spec words it fails: a reception is in progress
    ([isReceiving] is set), a packet is waiting and none is in flight;
    the dispatcher frames the packet, charges its airtime and empties the
    queue while the flag is still set. *)
Lemma sends_while_receiving :
  isReceiving receiving1 = true
  /\ queue (txQueue receiving1) = [local_packet 1]
  /\ out (onNotify 1 TRANSMIT_DELAY_COMPLETED receiving1) = Ret tt
  /\ count is_sendToPhone
       (emitted (onNotify 1 TRANSMIT_DELAY_COMPLETED receiving1)) = 1%nat
  /\ count is_tx_airtime
       (emitted (onNotify 1 TRANSMIT_DELAY_COMPLETED receiving1)) = 1%nat
  /\ queue (txQueue (final (onNotify 1 TRANSMIT_DELAY_COMPLETED receiving1))) = []
  /\ isReceiving (final (onNotify 1 TRANSMIT_DELAY_COMPLETED receiving1)) = true.
Proof. vm_compute. repeat split. Qed.

Lemma local_packet_sent_after_one_delay_witness :
  queue (txQueue idle4) = []
  /\ out (send (onNotify 1) (local_packet 1) idle4) = Ret ERRNO_OK
  /\ count is_tx_airtime
       (emitted (onNotify 1 TRANSMIT_DELAY_COMPLETED
                   (radio [local_packet 1] 4 None false))) = 1%nat
  /\ count is_release
       (emitted (onNotify 1 TRANSMIT_DELAY_COMPLETED
                   (radio [local_packet 1] 4 None false))) = 1%nat.
Proof.
  split; [reflexivity|].
  pose proof (local_packet_sent_after_one_delay 0 (local_packet 1) idle4) as W.
  destruct W as (Ho & _ & _ & _ & Ca & _ & Cr & _);
    [reflexivity | cbn; lia | reflexivity | reflexivity | reflexivity |].
  split; [exact Ho|]. split; [exact Ca | exact Cr].
Defined.

Lemma unexpected_event_or_receive_asserts_witness :
  0 <> ISR_TX /\ 0 <> ISR_RX /\ 0 <> TRANSMIT_DELAY_COMPLETED
  /\ isReceiving idle4 = false
  /\ onNotify 1 0 idle4 = mkRun (Crash AssertFailed) idle4 []
  /\ out (handleReceiveInterrupt (local_packet 1) idle4) = Crash AssertFailed.
Proof.
  split; [discriminate|]. split; [discriminate|]. split; [discriminate|].
  split; [reflexivity|].
  pose proof (unexpected_event_or_receive_asserts 0 0 idle4 idle4
                (local_packet 1)) as W.
  destruct W as (E1 & E2 & _);
    [discriminate | discriminate | discriminate | reflexivity |].
  split; [exact E1 | rewrite E2; reflexivity].
Defined.

(** A packet in flight is not a candidate for [cancelSending]: asked to
    cancel the very packet that is being sent, it returns [false] and
    releases nothing. *)
Example cancel_in_flight_returns_false :
  cancelSending 7 1 busy_tx
  = mkRun (Ret false) busy_tx
      [EvLog LOG_LEVEL_DEBUG "cancelSending id=0x%x, removed=%d\n"].
Proof. vm_compute. reflexivity. Qed.

(** Of two waiting packets with the same origin and id only the first is
    cancelled. *)
Example cancel_removes_first_match_only :
  let r := cancelSending 7 1 (radio [local_packet 2; local_packet 1; local_packet 1]
                                4 None false) in
  out r = Ret true
  /\ queue (txQueue (final r)) = [local_packet 2; local_packet 1]
  /\ count is_release (emitted r) = 1%nat.
Proof. vm_compute. repeat split. Qed.

(** * Further properties of the radio *)

Section Coverage.
Context `{Platform}.

(** ** Receiving *)

Lemma startReceive_run p st :
  startReceive p st =
  mkRun (Ret tt)
    {| txQueue := txQueue st; sendingPacket := sendingPacket st;
       isReceiving := false; txGood := txGood st |}
    [EvDelay (Msec (getPacketTime_len
                      (size (payload (decoded p)) + sizeof_PacketHeader)));
     EvLog LOG_LEVEL_DEBUG "HANDLE RECEIVE INTERRUPT\n";
     EvAllocCopy p;
     EvPrintPacket "Lora RX" (set_which_payload_variant p MeshPacket_decoded_tag);
     EvLogAirtime RX_LOG
       (getPacketTime_len (size (payload (decoded p)) + sizeof_PacketHeader));
     EvDeliverToReceiver (set_which_payload_variant p MeshPacket_decoded_tag)].
Proof.
  unfold startReceive, handleReceiveInterrupt, getPacketLength.
  unfold bind; cbn. reflexivity.
Qed.

(** X1: [startReceive] always returns and never fails the assertion of
    [handleReceiveInterrupt]: it sleeps for the airtime of the frame
    (payload plus header), charges the same airtime to the receive side,
    and delivers one copy of the packet, marked as decoded and otherwise
    unchanged.  The receive flag is clear afterwards; the queue, the
    packet in flight and the counter are untouched. *)
Theorem startReceive_delivers_copy (p : MeshPacket) (st : SimRadio) :
  let t := getPacketTime_len (size (payload (decoded p)) + sizeof_PacketHeader) in
  let mp := set_which_payload_variant p MeshPacket_decoded_tag in
  startReceive p st =
  mkRun (Ret tt)
    {| txQueue := txQueue st; sendingPacket := sendingPacket st;
       isReceiving := false; txGood := txGood st |}
    [EvDelay (Msec t);
     EvLog LOG_LEVEL_DEBUG "HANDLE RECEIVE INTERRUPT\n";
     EvAllocCopy p;
     EvPrintPacket "Lora RX" mp;
     EvLogAirtime RX_LOG t;
     EvDeliverToReceiver mp]
  /\ from mp = from p /\ id mp = id p /\ decoded mp = decoded p
  /\ rx_snr mp = rx_snr p /\ rx_rssi mp = rx_rssi p
  /\ which_payload_variant mp = MeshPacket_decoded_tag.
Proof.
  cbv zeta. split; [|repeat split].
  unfold startReceive, handleReceiveInterrupt, getPacketLength.
  unfold bind; cbn. reflexivity.
Qed.

Lemma handleReceiveInterrupt_receiving p st :
  isReceiving st = true ->
  handleReceiveInterrupt p st =
  mkRun (Ret tt)
    {| txQueue := txQueue st; sendingPacket := sendingPacket st;
       isReceiving := false; txGood := txGood st |}
    [EvLog LOG_LEVEL_DEBUG "HANDLE RECEIVE INTERRUPT\n";
     EvAllocCopy p;
     EvPrintPacket "Lora RX" (set_which_payload_variant p MeshPacket_decoded_tag);
     EvLogAirtime RX_LOG
       (getPacketTime_len (size (payload (decoded p)) + sizeof_PacketHeader));
     EvDeliverToReceiver (set_which_payload_variant p MeshPacket_decoded_tag)].
Proof.
  intros Hrx. unfold handleReceiveInterrupt, getPacketLength, LOG_DEBUG.
  apply bind_emit_run. rewrite bind_get, Hrx.
  unfold bind; cbn. reflexivity.
Qed.

(** X2: A reception is completed once: [handleReceiveInterrupt] on a
    receiving radio returns and clears the flag, so a second completion
    fails the assertion, having delivered nothing more; two completions
    in a row deliver exactly one packet. *)
Theorem receive_completes_once (p q : MeshPacket) (st : SimRadio) :
  isReceiving st = true ->
  let r := handleReceiveInterrupt p st in
  let rr := (handleReceiveInterrupt p ;; handleReceiveInterrupt q) st in
  out r = Ret tt
  /\ isReceiving (final r) = false
  /\ handleReceiveInterrupt q (final r) =
       mkRun (Crash AssertFailed) (final r)
         [EvLog LOG_LEVEL_DEBUG "HANDLE RECEIVE INTERRUPT\n"]
  /\ out rr = Crash AssertFailed
  /\ count is_handover (emitted rr) = 1%nat
  /\ count is_allocCopy (emitted rr) = 1%nat.
Proof.
  intros Hrx r rr.
  pose proof (handleReceiveInterrupt_receiving p st Hrx) as R.
  assert (C : handleReceiveInterrupt q (final r) =
              mkRun (Crash AssertFailed) (final r)
                [EvLog LOG_LEVEL_DEBUG "HANDLE RECEIVE INTERRUPT\n"]).
  { subst r. rewrite R. cbn [final].
    unfold handleReceiveInterrupt, LOG_DEBUG. apply bind_emit_run.
    rewrite bind_get. reflexivity. }
  subst rr. rewrite (bind_run_ret _ _ _ _ _ _ R).
  subst r. rewrite R in *. cbn [final] in C. rewrite C.
  cbn [out final emitted]. repeat split.
Qed.

(** ** Framing a payload that fits *)

Lemma memcpy_prefix dst src n :
  (N.to_nat n <= length src)%nat ->
  firstn (N.to_nat n) (memcpy dst src n) = firstn (N.to_nat n) src.
Proof.
  intros Hn. unfold memcpy.
  rewrite firstn_app, firstn_firstn, Nat.min_id, length_firstn.
  rewrite Nat.min_l by exact Hn. rewrite Nat.sub_diag. cbn.
  apply app_nil_r.
Qed.

Lemma memcpy_length dst src n :
  (N.to_nat n <= length src)%nat -> (N.to_nat n <= length dst)%nat ->
  length (memcpy dst src n) = length dst.
Proof.
  intros Hs Hd. unfold memcpy.
  rewrite length_app, length_firstn, length_skipn. lia.
Qed.

Lemma memcpy_suffix dst src n :
  (N.to_nat n <= length src)%nat ->
  skipn (N.to_nat n) (memcpy dst src n) = skipn (N.to_nat n) dst.
Proof.
  intros Hn. unfold memcpy.
  rewrite skipn_app, length_firstn, Nat.min_l by exact Hn.
  rewrite Nat.sub_diag. cbn.
  rewrite skipn_all2 by (rewrite length_firstn; lia). reflexivity.
Qed.

Lemma skipn_repeat_zero (b : Byte.byte) (n m : nat) :
  skipn n (repeat b m) = repeat b (m - n).
Proof.
  revert m. induction n as [|n IH]; intros m.
  - rewrite Nat.sub_0_r. reflexivity.
  - destruct m as [|m]; [reflexivity|]. cbn. apply IH.
Qed.

(** X3: A payload that fits the envelope, up to and including one that fills
    it, is framed whole: [startSend] logs no warning, and the envelope it
    encodes has the size of the payload, the payload's bytes in front and
    zero bytes behind, in a buffer of the envelope's capacity. *)
Theorem startSend_fitting_payload_is_copied (txp : MeshPacket) (st : SimRadio) :
  let p := perhapsDecode txp in
  let n := size (payload (decoded p)) in
  n <= sizeof_Compressed_data_bytes ->
  (N.to_nat n <= length (bytes (payload (decoded p))))%nat ->
  exists c p',
    emitted (startSend txp st) =
      [EvPrintPacket "Starting low level send" txp; EvAllocCopy txp;
       EvEncode c; EvSendToPhone p']
    /\ count is_warning (emitted (startSend txp st)) = 0%nat
    /\ Compressed_portnum c = portnum (decoded p)
    /\ size (Compressed_data c) = n
    /\ firstn (N.to_nat n) (bytes (Compressed_data c))
         = firstn (N.to_nat n) (bytes (payload (decoded p)))
    /\ skipn (N.to_nat n) (bytes (Compressed_data c))
         = repeat Byte.x00 (N.to_nat sizeof_Compressed_data_bytes - N.to_nat n)
    /\ length (bytes (Compressed_data c)) = N.to_nat sizeof_Compressed_data_bytes.
Proof.
  intros p n Hfit Hlen.
  pose proof (startSend_run txp st) as R. cbv zeta in R. fold p in R.
  assert (F : frame p =
              ({| Compressed_portnum := portnum (decoded p);
                  Compressed_data :=
                    {| size := n;
                       bytes := memcpy (repeat Byte.x00
                                          (N.to_nat sizeof_Compressed_data_bytes))
                                       (bytes (payload (decoded p))) n |} |},
               true)).
  { unfold frame. fold n.
    destruct (N.leb_spec n sizeof_Compressed_data_bytes); [reflexivity | lia]. }
  rewrite F in R. cbn [fst snd app] in R. rewrite R. cbn [emitted].
  eexists. eexists. split; [reflexivity|].
  split; [reflexivity|]. split; [reflexivity|]. split; [reflexivity|].
  cbn [Compressed_data bytes].
  split; [apply memcpy_prefix; exact Hlen|].
  split.
  - rewrite memcpy_suffix by exact Hlen. apply skipn_repeat_zero.
  - rewrite memcpy_length; rewrite ?repeat_length; lia.
Qed.

(** ** Reading received data *)

(** X17: [readData] on a buffer with room for index [len] returns
    [RADIOLIB_ERR_NONE] and a buffer of the same length that holds a zero
    byte at [len] and the old bytes everywhere else; past the end of the
    buffer the store has no result. *)
Theorem readData_null_terminates (ok : Z) (data : list Byte.byte) (len : N) :
  (N.to_nat len < length data)%nat ->
  exists data',
    readData ok data len = Some (data', ok)
    /\ length data' = length data
    /\ nth_error data' (N.to_nat len) = Some Byte.x00
    /\ (forall i, i <> N.to_nat len -> nth_error data' i = nth_error data i).
Proof.
  intros Hlen. unfold readData, store. rewrite Z.eqb_refl.
  destruct (Nat.ltb_spec (N.to_nat len) (length data)) as [_|]; [|lia].
  eexists. split; [reflexivity|].
  set (k := N.to_nat len) in *.
  assert (Hk : length (firstn k data) = k)
    by (rewrite length_firstn; lia).
  split; [|split].
  - rewrite length_app. cbn [length]. rewrite Hk, length_skipn. lia.
  - rewrite nth_error_app2 by lia. rewrite Hk, Nat.sub_diag. reflexivity.
  - intros i Hi. destruct (Nat.lt_ge_cases i k) as [Hlt|Hge].
    + rewrite nth_error_app1 by lia. rewrite nth_error_firstn.
      destruct (Nat.ltb_spec i k); [reflexivity | lia].
    + rewrite nth_error_app2 by lia. rewrite Hk.
      destruct (i - k)%nat as [|j] eqn:Ej; [lia|].
      cbn [nth_error]. rewrite nth_error_skipn. f_equal. lia.
Qed.

(** ** The dispatcher, case by case *)

Lemma rx_is_not_tx : (ISR_RX =? ISR_TX) = false.
Proof.
  pose proof notification_codes_distinct as D.
  apply andb_prop in D. destruct D as [D _].
  apply andb_prop in D. destruct D as [D _].
  apply negb_true_iff in D. rewrite N.eqb_sym. exact D.
Qed.

Lemma onNotify_unfold fuel n st :
  onNotify (S fuel) n st = onNotify_body (onNotify fuel) n st.
Proof. reflexivity. Qed.

Lemma onNotify_rx_run fuel st :
  onNotify (S fuel) ISR_RX st =
  mkRun (Ret tt) st [EvLog LOG_LEVEL_DEBUG "rx complete - starting timer\n"].
Proof.
  cbn [onNotify]. unfold onNotify_body.
  rewrite rx_is_not_tx, N.eqb_refl. reflexivity.
Qed.

Lemma handleTransmitInterrupt_idle st :
  sendingPacket st = None -> handleTransmitInterrupt st = mkRun (Ret tt) st [].
Proof.
  intros Hs. unfold handleTransmitInterrupt. rewrite bind_get, Hs. reflexivity.
Qed.

Lemma handleTransmitInterrupt_in_flight st q :
  sendingPacket st = Some q ->
  handleTransmitInterrupt st =
  mkRun (Ret tt) (after_completion st)
    [EvPrintPacket "Completed sending" q; EvRelease q].
Proof.
  intros Hs. unfold handleTransmitInterrupt. rewrite bind_get, Hs.
  apply completeSending_in_flight. exact Hs.
Qed.

Lemma startTransmitTimer_empty notify withDelay st :
  queue (txQueue st) = [] ->
  startTransmitTimer notify withDelay st =
  mkRun (Ret tt) st [EvLog LOG_LEVEL_DEBUG "TX QUEUE EMPTY!\n"].
Proof.
  intros Hq. unfold startTransmitTimer.
  step_pure (txQueue_empty_run st).
  unfold empty. rewrite Hq. reflexivity.
Qed.

(** The dispatcher on [TRANSMIT_DELAY_COMPLETED] with nothing in flight,
    in terms of the state it leaves. *)
Lemma onNotify_delay_run fuel st :
  sendingPacket st = None ->
  onNotify (S fuel) TRANSMIT_DELAY_COMPLETED st =
  match queue (txQueue st) with
  | [] => mkRun (Ret tt) st [EvLog LOG_LEVEL_DEBUG "delay done\n"]
  | txp :: _ =>
      mkRun (Ret tt) (after_transmit st)
        ([EvLog LOG_LEVEL_DEBUG "delay done\n"]
           ++ emitted (startSend txp st)
           ++ [EvLogAirtime TX_LOG (getPacketTime txp);
               EvDelay (Msec (getPacketTime txp));
               EvPrintPacket "Completed sending" txp;
               EvRelease txp])
  end.
Proof.
  intros Hs. destruct (queue (txQueue st)) as [|txp rest] eqn:Hq.
  - apply onNotify_delay_empty. exact Hq.
  - rewrite (onNotify_transmits fuel st txp rest Hq Hs).
    unfold after_transmit. rewrite Hq. reflexivity.
Qed.

(** The dispatcher on [ISR_TX] with nothing in flight. *)
Lemma onNotify_tx_run fuel st :
  sendingPacket st = None ->
  let d0 := if negb startTransmitTimer_default then Msec 1 else TxDelayMsec in
  let r := onNotify (S fuel) TRANSMIT_DELAY_COMPLETED st in
  onNotify (S (S fuel)) ISR_TX st =
  match queue (txQueue st) with
  | [] => mkRun (Ret tt) st
            [EvLog LOG_LEVEL_DEBUG "tx complete - starting timer\n";
             EvLog LOG_LEVEL_DEBUG "TX QUEUE EMPTY!\n"]
  | _ :: _ =>
      mkRun (out r) (final r)
        (EvLog LOG_LEVEL_DEBUG "tx complete - starting timer\n"
           :: EvDelay d0 :: emitted r)
  end.
Proof.
  intros Hs d0 r. rewrite onNotify_unfold. unfold onNotify_body.
  rewrite N.eqb_refl.
  step_pure (handleTransmitInterrupt_idle st Hs).
  unfold LOG_DEBUG at 1.
  destruct (queue (txQueue st)) as [|p rest] eqn:Hq; apply bind_emit_run.
  - apply startTransmitTimer_empty. exact Hq.
  - rewrite (startTransmitTimer_nonempty _ _ _ _ _ Hq).
    unfold delay. rewrite bind_emit. reflexivity.
Qed.

(** The dispatcher on [ISR_TX] with a packet in flight: the completion,
    then the same as with nothing in flight. *)
Lemma onNotify_tx_in_flight fuel st q :
  sendingPacket st = Some q ->
  let r := onNotify (S fuel) ISR_TX (after_completion st) in
  onNotify (S fuel) ISR_TX st =
  mkRun (out r) (final r)
    (EvPrintPacket "Completed sending" q :: EvRelease q :: emitted r).
Proof.
  intros Hs r. subst r. rewrite !onNotify_unfold. unfold onNotify_body.
  rewrite N.eqb_refl.
  step_ret (handleTransmitInterrupt_in_flight st q Hs).
  step_pure (handleTransmitInterrupt_idle (after_completion st) eq_refl).
  reflexivity.
Qed.

Lemma released_app l1 l2 : released (l1 ++ l2) = released l1 ++ released l2.
Proof. unfold released. apply flat_map_app. Qed.

Lemma startSend_releases_nothing txp st : released (emitted (startSend txp st)) = [].
Proof.
  pose proof (startSend_run txp st) as R. cbv zeta in R. rewrite R.
  cbn [emitted]. destruct (snd (frame (perhapsDecode txp))); reflexivity.
Qed.

Lemma startSend_copies_once txp st :
  count is_allocCopy (emitted (startSend txp st)) = 1%nat
  /\ count is_handover (emitted (startSend txp st)) = 1%nat.
Proof.
  pose proof (startSend_run txp st) as R. cbv zeta in R. rewrite R.
  cbn [emitted]. unfold count.
  destruct (snd (frame (perhapsDecode txp))); split; reflexivity.
Qed.

Lemma startSend_charges_nothing txp st :
  count is_airtime (emitted (startSend txp st)) = 0%nat.
Proof.
  pose proof (startSend_run txp st) as R. cbv zeta in R. rewrite R.
  cbn [emitted]. unfold count.
  destruct (snd (frame (perhapsDecode txp))); reflexivity.
Qed.

Lemma startSend_delays_nothing txp st d : ~ In (EvDelay d) (emitted (startSend txp st)).
Proof.
  pose proof (startSend_run txp st) as R. cbv zeta in R. rewrite R.
  cbn [emitted]. destruct (snd (frame (perhapsDecode txp))); cbn;
    intuition discriminate.
Qed.

(** X4: [ISR_TX] with a packet in flight always returns.  It completes that
    packet: counts it and releases it.  If no packet is waiting that is
    all.  If one is waiting it then sleeps for the delay of
    [startTransmitTimer()], which does not look at the signal metrics of
    the waiting packet, and sends the head of the queue in the same call:
    the two packets are released in that order, the counter has been
    incremented twice, and the only delays are that one and the airtime
    of the packet sent. *)
Theorem tx_interrupt_completes_and_sends_next (fuel : nat) (st : SimRadio)
    (q : MeshPacket) :
  sendingPacket st = Some q ->
  let r := onNotify (S (S fuel)) ISR_TX st in
  let d0 := if negb startTransmitTimer_default then Msec 1 else TxDelayMsec in
  out r = Ret tt
  /\ sendingPacket (final r) = None
  /\ isReceiving (final r) = isReceiving st
  /\ match queue (txQueue st) with
     | [] =>
         final r = after_completion st
         /\ emitted r =
              [EvPrintPacket "Completed sending" q; EvRelease q;
               EvLog LOG_LEVEL_DEBUG "tx complete - starting timer\n";
               EvLog LOG_LEVEL_DEBUG "TX QUEUE EMPTY!\n"]
     | p :: rest =>
         released (emitted r) = [q; p]
         /\ queue (txQueue (final r)) = rest
         /\ txGood (final r) = wrap32 (wrap32 (txGood st + 1) + 1)
         /\ count is_tx_airtime (emitted r) = 1%nat
         /\ In (EvDelay d0) (emitted r)
         /\ (forall d, In (EvDelay d) (emitted r) ->
                       d = d0 \/ d = Msec (getPacketTime p))
     end.
Proof.
  intros Hs r d0. subst r.
  rewrite (onNotify_tx_in_flight (S fuel) st q Hs).
  pose proof (onNotify_tx_run fuel (after_completion st) eq_refl) as T.
  cbv zeta in T. rewrite T. clear T.
  change (queue (txQueue (after_completion st))) with (queue (txQueue st)).
  destruct (queue (txQueue st)) as [|p rest] eqn:Hq.
  - cbn [out final emitted sendingPacket isReceiving]. repeat split.
  - pose proof (onNotify_transmits fuel (after_completion st) p rest Hq eq_refl)
      as D. rewrite D. clear D.
    cbn [out final emitted sendingPacket isReceiving txQueue queue txGood
         after_completion].
    split; [reflexivity|]. split; [reflexivity|]. split; [reflexivity|].
    pose proof (startSend_releases_nothing p (after_completion st)) as Rn.
    pose proof (startSend_counts p (after_completion st)) as (Ca & _ & _).
    match goal with
    | |- context [?a :: ?b :: ?c :: ?d :: (?l1 ++ ?l2 ++ ?l3)] =>
        change (a :: b :: c :: d :: (l1 ++ l2 ++ l3))
          with ([a; b; c; d] ++ l1 ++ l2 ++ l3)
    end.
    split; [rewrite !released_app, Rn; reflexivity|].
    split; [reflexivity|]. split; [reflexivity|].
    split; [rewrite !count_app, Ca; reflexivity|].
    split; [apply in_or_app; left; cbn; auto|].
    intros d Hin.
    repeat (apply in_app_or in Hin; destruct Hin as [Hin|Hin]).
    + cbn in Hin. destruct Hin as [Hin|[Hin|[Hin|[Hin|[]]]]];
        try discriminate. left. inversion Hin. reflexivity.
    + cbn in Hin. destruct Hin as [Hin|[]]. discriminate.
    + exfalso. exact (startSend_delays_nothing _ _ _ Hin).
    + cbn in Hin. destruct Hin as [Hin|[Hin|[Hin|[Hin|[]]]]];
        try discriminate. right. inversion Hin. reflexivity.
Qed.

(** ** Sending, case by case *)

(** One [TRANSMIT_DELAY_COMPLETED] with a packet waiting and none in
    flight: what it leaves and what it calls. *)
Lemma transmit_facts fuel st h rest :
  sendingPacket st = None ->
  queue (txQueue st) = h :: rest ->
  let r := onNotify (S fuel) TRANSMIT_DELAY_COMPLETED st in
  out r = Ret tt
  /\ final r = after_transmit st
  /\ released (emitted r) = [h]
  /\ count is_allocCopy (emitted r) = 1%nat
  /\ count is_handover (emitted r) = 1%nat
  /\ count is_tx_airtime (emitted r) = 1%nat
  /\ In (EvLogAirtime TX_LOG (getPacketTime h)) (emitted r)
  /\ count is_airtime (emitted r) = 1%nat.
Proof.
  intros Hs Hq r. subst r.
  rewrite (onNotify_delay_run fuel st Hs), Hq.
  cbn [out final emitted].
  pose proof (startSend_releases_nothing h st) as Rn.
  pose proof (startSend_counts h st) as (Ca & _ & _).
  pose proof (startSend_copies_once h st) as (Cc & Ch).
  pose proof (startSend_charges_nothing h st) as Cz.
  split; [reflexivity|]. split; [reflexivity|].
  split; [rewrite !released_app, Rn; reflexivity|].
  split; [rewrite !count_app, Cc; reflexivity|].
  split; [rewrite !count_app, Ch; reflexivity|].
  split; [rewrite !count_app, Ca; reflexivity|].
  split; [apply in_or_app; right; apply in_or_app; right; cbn; auto|].
  rewrite !count_app, Cz. reflexivity.
Qed.

(** [send] with room in the queue, in terms of the dispatcher's run on
    the radio with the packet appended. *)
Lemma send_room_run notify p st h rest :
  (length (queue (txQueue st)) < maxLen (txQueue st))%nat ->
  queue (txQueue st) ++ [p] = h :: rest ->
  let queued := {| txQueue := {| queue := h :: rest;
                                 maxLen := maxLen (txQueue st) |};
                   sendingPacket := sendingPacket st;
                   isReceiving := isReceiving st;
                   txGood := txGood st |} in
  let r := notify TRANSMIT_DELAY_COMPLETED queued in
  send notify p st =
  mkRun (match out r with
         | Ret _ => Ret ERRNO_OK
         | Crash f => Crash f
         | OutOfFuel => OutOfFuel
         end)
        (final r)
        ([EvPrintPacket "enqueuing for send" p;
          EvLog LOG_LEVEL_DEBUG "Set random delay before transmitting.\n"]
           ++ (if PrimFloat.eqb (rx_snr h) 0 && (rx_rssi h =? 0)%Z
               then [EvDelay TxDelayMsec]
               else [EvLog LOG_LEVEL_DEBUG "rx_snr found. hop_limit:%d rx_snr:%f\n";
                     EvDelay (TxDelayMsecWeighted (rx_snr h))])
           ++ emitted r).
Proof.
  intros Hroom Hq queued r.
  pose proof (send_accepted notify p st Hroom) as S0. cbv zeta in S0.
  rewrite Hq in S0. fold queued in S0.
  pose proof (setTransmitDelay_run notify queued h rest eq_refl) as D.
  cbv zeta in D. fold r in D. rewrite D in S0. rewrite S0.
  cbn [out final emitted app].
  destruct (PrimFloat.eqb (rx_snr h) 0 && (rx_rssi h =? 0)%Z); reflexivity.
Qed.

Lemma released_rearms_only d l : Forall (rearms_only d) l -> released l = [].
Proof.
  induction 1 as [|e l He _ IH]; [reflexivity|].
  destruct e; cbn in He; try contradiction; exact IH.
Qed.

(** X7: With packets already waiting and none in flight, [send] appends the
    new packet and sends the oldest one before it returns: it returns
    [ERRNO_OK], the delay it sleeps is the one the metrics of that oldest
    packet call for, the oldest packet is the one charged as airtime and
    released, and the queue is as long as before. *)
Theorem send_transmits_oldest_waiting (fuel : nat) (p h : MeshPacket)
    (rest : list MeshPacket) (st : SimRadio) :
  sendingPacket st = None ->
  (length (queue (txQueue st)) < maxLen (txQueue st))%nat ->
  queue (txQueue st) ++ [p] = h :: rest ->
  let r := send (onNotify (S fuel)) p st in
  let d := if PrimFloat.eqb (rx_snr h) 0 && (rx_rssi h =? 0)%Z
           then TxDelayMsec else TxDelayMsecWeighted (rx_snr h) in
  out r = Ret ERRNO_OK
  /\ queue (txQueue (final r)) = rest
  /\ length (queue (txQueue (final r))) = length (queue (txQueue st))
  /\ sendingPacket (final r) = None
  /\ released (emitted r) = [h]
  /\ In (EvDelay d) (emitted r)
  /\ count is_tx_airtime (emitted r) = 1%nat
  /\ In (EvLogAirtime TX_LOG (getPacketTime h)) (emitted r).
Proof.
  intros Hs Hroom Hq r d. subst r.
  pose proof (send_room_run (onNotify (S fuel)) p st h rest Hroom Hq) as S0.
  cbv zeta in S0. rewrite S0. clear S0. rewrite Hs.
  match goal with
  | |- context [onNotify (S fuel) TRANSMIT_DELAY_COMPLETED ?q] =>
      pose proof (transmit_facts fuel q h rest eq_refl eq_refl) as T
  end.
  cbv zeta in T. destruct T as (To & Tf & Tr & _ & _ & Ta & Tin & _).
  rewrite To, Tf. cbn [out final emitted after_transmit txQueue queue tl
                       sendingPacket].
  split; [reflexivity|]. split; [reflexivity|].
  split.
  { apply (f_equal (@length _)) in Hq. rewrite length_app in Hq.
    cbn in Hq. lia. }
  split; [reflexivity|].
  split.
  { rewrite !released_app, Tr. subst d.
    destruct (PrimFloat.eqb (rx_snr h) 0 && (rx_rssi h =? 0)%Z); reflexivity. }
  split.
  { apply in_or_app; right. apply in_or_app; left. subst d.
    destruct (PrimFloat.eqb (rx_snr h) 0 && (rx_rssi h =? 0)%Z); cbn; auto. }
  split.
  { rewrite !count_app, Ta.
    destruct (PrimFloat.eqb (rx_snr h) 0 && (rx_rssi h =? 0)%Z); reflexivity. }
  apply in_or_app; right. apply in_or_app; right. exact Tin.
Qed.

(** X8: With a packet in flight and room in the queue, [send] never returns:
    the packet is appended to the queue and the blocking timer keeps
    re-arming, whatever the fuel; nothing is released, framed or charged
    as airtime, and the packet in flight stays in flight. *)
Theorem send_with_packet_in_flight_never_returns (fuel : nat)
    (p q : MeshPacket) (st : SimRadio) :
  sendingPacket st = Some q ->
  (length (queue (txQueue st)) < maxLen (txQueue st))%nat ->
  let r := send (onNotify fuel) p st in
  out r = OutOfFuel
  /\ queue (txQueue (final r)) = queue (txQueue st) ++ [p]
  /\ sendingPacket (final r) = Some q
  /\ released (emitted r) = []
  /\ count is_sendToPhone (emitted r) = 0%nat
  /\ count is_tx_airtime (emitted r) = 0%nat.
Proof.
  intros Hs Hroom r. subst r.
  destruct (queue (txQueue st) ++ [p]) as [|h rest] eqn:Hq.
  { destruct (queue (txQueue st)); discriminate. }
  pose proof (send_room_run (onNotify fuel) p st h rest Hroom Hq) as S0.
  cbv zeta in S0. rewrite S0. clear S0. rewrite Hs.
  match goal with
  | |- context [onNotify fuel TRANSMIT_DELAY_COMPLETED ?s] =>
      pose proof (onNotify_busy_loops fuel s h rest q eq_refl eq_refl) as L
  end.
  cbv zeta in L. destruct L as (Lo & Lf & Lall).
  rewrite Lo, Lf. cbn [out final emitted txQueue queue sendingPacket].
  split; [reflexivity|]. split; [reflexivity|]. split; [reflexivity|].
  pose proof (released_rearms_only _ _ Lall) as Rl.
  split.
  { rewrite !released_app, Rl.
    destruct (PrimFloat.eqb (rx_snr h) 0 && (rx_rssi h =? 0)%Z); reflexivity. }
  split.
  - rewrite !count_app.
    rewrite (count_rearms_only is_sendToPhone _ _
               (fun e => match e with EvLog _ _ | EvDelay _ => fun _ => eq_refl
                                 | _ => fun F => match F with end end) Lall).
    destruct (PrimFloat.eqb (rx_snr h) 0 && (rx_rssi h =? 0)%Z); reflexivity.
  - rewrite !count_app.
    rewrite (count_rearms_only is_tx_airtime _ _
               (fun e => match e with EvLog _ _ | EvDelay _ => fun _ => eq_refl
                                 | _ => fun F => match F with end end) Lall).
    destruct (PrimFloat.eqb (rx_snr h) 0 && (rx_rssi h =? 0)%Z); reflexivity.
Qed.

(** ** When the dispatcher returns *)

(** X5: For the three notifications it knows, the dispatcher fails no
    assertion and dereferences no null pointer.  It never returns in one
    situation: [TRANSMIT_DELAY_COMPLETED] with a packet in flight and a
    packet waiting, where the blocking timer re-arms for ever.  In every
    other situation it returns, and two levels of re-entry are all it
    uses: more fuel gives the same run. *)
Theorem dispatcher_returns_unless_busy (fuel : nat) (n : N) (st : SimRadio) :
  n = ISR_TX \/ n = ISR_RX \/ n = TRANSMIT_DELAY_COMPLETED ->
  let stuck := n = TRANSMIT_DELAY_COMPLETED
               /\ sendingPacket st <> None /\ queue (txQueue st) <> [] in
  (stuck -> forall fuel', out (onNotify fuel' n st) = OutOfFuel)
  /\ (~ stuck ->
      out (onNotify (S (S fuel)) n st) = Ret tt
      /\ onNotify (S (S fuel)) n st = onNotify 2 n st).
Proof.
  intros Hn stuck. split.
  - intros (-> & Hs & Hq) fuel'.
    destruct (sendingPacket st) as [q|] eqn:Es; [|congruence].
    destruct (queue (txQueue st)) as [|h rest] eqn:Eq; [congruence|].
    exact (proj1 (onNotify_busy_loops fuel' st h rest q Eq Es)).
  - intros Hfree. destruct Hn as [-> | [-> | ->]].
    + (* ISR_TX *)
      assert (T : forall s, sendingPacket s = None -> forall f,
                 out (onNotify (S (S f)) ISR_TX s) = Ret tt
                 /\ onNotify (S (S f)) ISR_TX s = onNotify 2 ISR_TX s).
      { intros s Hs f.
        pose proof (onNotify_tx_run f s Hs) as A.
        pose proof (onNotify_tx_run 0 s Hs) as B.
        cbv zeta in A, B. rewrite A, B.
        rewrite !(onNotify_delay_run _ s Hs).
        destruct (queue (txQueue s)); split; reflexivity. }
      destruct (sendingPacket st) as [q|] eqn:Es.
      * rewrite (onNotify_tx_in_flight (S fuel) st q Es).
        rewrite (onNotify_tx_in_flight 1 st q Es).
        destruct (T (after_completion st) eq_refl fuel) as (To & Te).
        rewrite Te. cbn [out]. rewrite <- Te. split; [exact To | reflexivity].
      * exact (T st Es fuel).
    + rewrite !onNotify_rx_run. split; reflexivity.
    + destruct (sendingPacket st) as [q|] eqn:Es.
      * destruct (queue (txQueue st)) as [|h rest] eqn:Eq.
        -- rewrite !(onNotify_delay_empty _ st Eq). split; reflexivity.
        -- exfalso. apply Hfree. repeat split; congruence.
      * rewrite !(onNotify_delay_run _ st Es).
        destruct (queue (txQueue st)); split; reflexivity.
Qed.

(** ** Cancelling, as a function of the queue *)

Lemma cancelSending_run origin ident st :
  cancelSending origin ident st =
  let '(found, l) := remove_first origin ident (queue (txQueue st)) in
  mkRun (Ret (match found with Some _ => true | None => false end))
    {| txQueue := {| queue := l; maxLen := maxLen (txQueue st) |};
       sendingPacket := sendingPacket st;
       isReceiving := isReceiving st; txGood := txGood st |}
    (match found with Some p => [EvRelease p] | None => [] end
       ++ [EvLog LOG_LEVEL_DEBUG "cancelSending id=0x%x, removed=%d\n"]).
Proof.
  unfold cancelSending.
  step_pure (txQueue_remove_run origin ident st).
  destruct (remove_first origin ident (queue (txQueue st))) as [[p|] l];
    cbn [fst snd]; unfold bind; cbn; reflexivity.
Qed.

Lemma remove_first_filter origin ident l :
  let '(found, l') := remove_first origin ident l in
  filter (fun x => negb (matches origin ident x)) l'
    = filter (fun x => negb (matches origin ident x)) l
  /\ match found with
     | Some p =>
         matches origin ident p = true
         /\ existsb (matches origin ident) l = true
         /\ S (length l') = length l
         /\ S (length (filter (matches origin ident) l'))
              = length (filter (matches origin ident) l)
     | None => existsb (matches origin ident) l = false /\ l' = l
     end.
Proof.
  induction l as [|a l IH]; [cbn; repeat split|].
  cbn [remove_first]. destruct (matches origin ident a) eqn:Ma.
  - cbn [filter existsb]. rewrite Ma. cbn. repeat split.
  - destruct (remove_first origin ident l) as [[p|] l'];
      cbn [filter existsb length]; rewrite Ma; cbn [negb orb];
      destruct IH as (Hf & Hrest).
    + destruct Hrest as (Mp & Hex & Hlen & Hcnt).
      split; [f_equal; exact Hf|]. repeat split; try assumption. lia.
    + destruct Hrest as (Hex & ->). repeat split; assumption.
Qed.

(** X15: [cancelSending] answers whether some waiting packet has that origin
    and id.  It takes one such packet away when there is one, so asking
    again succeeds only if another one was waiting; the waiting packets
    with another origin or id stay as they are, in their order. *)
Theorem cancelSending_counts_matches (origin ident : N) (st : SimRadio) :
  let r := cancelSending origin ident st in
  let waiting s := filter (matches origin ident) (queue (txQueue s)) in
  let others s := filter (fun x => negb (matches origin ident x))
                         (queue (txQueue s)) in
  out r = Ret (existsb (matches origin ident) (queue (txQueue st)))
  /\ length (waiting (final r)) = pred (length (waiting st))
  /\ others (final r) = others st
  /\ out (cancelSending origin ident (final r))
       = Ret (1 <? length (waiting st))%nat
  /\ length (released (emitted r)) =
       (length (queue (txQueue st)) - length (queue (txQueue (final r))))%nat.
Proof.
  intros r waiting others. subst r waiting others. cbv beta.
  rewrite !cancelSending_run.
  pose proof (remove_first_filter origin ident (queue (txQueue st))) as F.
  destruct (remove_first origin ident (queue (txQueue st))) as [found l'].
  destruct F as (Hoth & Hfound).
  cbn [out final emitted txQueue queue].
  pose proof (remove_first_filter origin ident l') as F2.
  destruct (remove_first origin ident l') as [found2 l2].
  destruct F2 as (_ & Hfound2). cbn [out].
  assert (Hex : forall l, existsb (matches origin ident) l
                          = (0 <? length (filter (matches origin ident) l))%nat).
  { induction l as [|a l IHl]; [reflexivity|].
    cbn. destruct (matches origin ident a); cbn; [reflexivity | exact IHl]. }
  destruct found as [p|].
  - destruct Hfound as (Mp & Hex1 & Hlen & Hcnt).
    rewrite Hex1. split; [reflexivity|].
    split; [rewrite <- Hcnt; reflexivity|]. split; [exact Hoth|].
    split.
    + rewrite <- Hcnt. f_equal.
      destruct found2 as [p2|].
      * destruct Hfound2 as (_ & Hex2 & _). rewrite Hex in Hex2.
        cbn. symmetry. exact Hex2.
      * destruct Hfound2 as (Hex2 & _). rewrite Hex in Hex2.
        cbn. symmetry. exact Hex2.
    + cbn. lia.
  - destruct Hfound as (Hex1 & ->). rewrite Hex1.
    split; [reflexivity|].
    rewrite Hex in Hex1. apply Nat.ltb_ge in Hex1.
    split; [lia|]. split; [reflexivity|].
    split.
    + f_equal. destruct found2 as [p2|].
      * destruct Hfound2 as (_ & Hex2 & _). rewrite Hex in Hex2.
        apply Nat.ltb_lt in Hex2. lia.
      * symmetry. apply Nat.ltb_ge. lia.
    + cbn. lia.
Qed.

(** ** Serving requests *)

Lemma remove_first_perm origin ident l :
  let '(found, l') := remove_first origin ident l in
  Permutation l (match found with Some p => [p] | None => [] end ++ l')
  /\ (length l' <= length l)%nat.
Proof.
  induction l as [|a l IH]; [cbn; split; [constructor | lia]|].
  cbn [remove_first]. destruct (matches origin ident a).
  - cbn. split; [reflexivity | lia].
  - destruct (remove_first origin ident l) as [[p|] l']; destruct IH as (Hp & Hl);
      cbn in *; (split; [|lia]).
    + rewrite Hp. apply perm_swap.
    + constructor. exact Hp.
Qed.

(** What one request does to a radio with no packet in flight. *)
Lemma serve_step fuel r st :
  sendingPacket st = None ->
  known r ->
  let x := serve (S (S fuel)) r st in
  out x = Ret tt
  /\ sendingPacket (final x) = None
  /\ (isReceiving st = false -> isReceiving (final x) = false)
  /\ maxLen (txQueue (final x)) = maxLen (txQueue st)
  /\ (length (queue (txQueue (final x))) <= length (queue (txQueue st)))%nat
  /\ Permutation (queue (txQueue st) ++ submitted [r])
       (released (emitted x) ++ queue (txQueue (final x)))
  /\ count is_allocCopy (emitted x) = count is_handover (emitted x)
  /\ count is_airtime (emitted x) = count is_handover (emitted x).
Proof.
  intros Hs Hk x. subst x. destruct r as [p|origin ident|n|p|]; cbn [serve submitted flat_map app].
  - (* send *)
    destruct (Nat.ltb_spec (length (queue (txQueue st))) (maxLen (txQueue st)))
      as [Hroom|Hfull].
    + destruct (queue (txQueue st) ++ [p]) as [|h rest] eqn:Hq.
      { destruct (queue (txQueue st)); discriminate. }
      pose proof (send_room_run (onNotify (S (S fuel))) p st h rest Hroom Hq) as S0.
      cbv zeta in S0. rewrite Hs in S0.
      match type of S0 with
      | context [onNotify (S (S fuel)) TRANSMIT_DELAY_COMPLETED ?q] =>
          pose proof (transmit_facts (S fuel) q h rest eq_refl eq_refl) as T
      end.
      cbv zeta in T. destruct T as (To & Tf & Tr & Tc & Th & _ & _ & Tt).
      rewrite To, Tf in S0.
      rewrite (bind_run_ret _ _ _ _ _ _ S0).
      cbn [out final emitted ret after_transmit txQueue queue tl sendingPacket
           isReceiving maxLen].
      rewrite !app_nil_r.
      split; [reflexivity|]. split; [reflexivity|]. split; [auto|].
      split; [reflexivity|].
      split.
      { apply (f_equal (@length _)) in Hq. rewrite length_app in Hq.
        cbn in Hq. lia. }
      split.
      { rewrite !released_app, Tr.
        destruct (PrimFloat.eqb (rx_snr h) 0 && (rx_rssi h =? 0)%Z);
          cbn; reflexivity. }
      split; rewrite !count_app, ?Tc, ?Tt, Th;
        destruct (PrimFloat.eqb (rx_snr h) 0 && (rx_rssi h =? 0)%Z); reflexivity.
    + assert (E : fst (enqueue p (txQueue st)) = false)
        by (rewrite enqueue_full by exact Hfull; reflexivity).
      rewrite (bind_run_ret _ _ _ _ _ _ (send_refused _ p st E)).
      cbn [out final emitted ret app released flat_map].
      split; [reflexivity|]. split; [exact Hs|]. split; [auto|].
      split; [reflexivity|]. split; [lia|].
      split; [apply Permutation_app_comm | split; reflexivity].
  - (* cancelSending *)
    pose proof (cancelSending_run origin ident st) as C.
    pose proof (remove_first_perm origin ident (queue (txQueue st))) as P.
    destruct (remove_first origin ident (queue (txQueue st))) as [found l'].
    destruct P as (Pp & Pl).
    rewrite (bind_run_ret _ _ _ _ _ _ C).
    cbn [out final emitted ret txQueue queue sendingPacket isReceiving maxLen].
    rewrite !app_nil_r.
    split; [reflexivity|]. split; [exact Hs|]. split; [auto|].
    split; [reflexivity|]. split; [exact Pl|].
    split.
    + rewrite released_app. cbn [released flat_map app]. rewrite app_nil_r.
      destruct found; exact Pp.
    + destruct found; split; reflexivity.
  - (* onNotify *)
    rewrite app_nil_r. cbn in Hk. destruct Hk as [-> | [-> | ->]].
    + pose proof (onNotify_tx_run fuel st Hs) as T. cbv zeta in T. rewrite T.
      destruct (queue (txQueue st)) as [|h rest] eqn:Hq.
      * cbn [out final emitted released flat_map app]. rewrite Hq.
        repeat split; auto.
      * pose proof (transmit_facts fuel st h rest Hs Hq) as F.
        cbv zeta in F. destruct F as (To & Tf & Tr & Tc & Th & _ & _ & Tt).
        rewrite To, Tf.
        cbn [out final emitted after_transmit txQueue queue tl sendingPacket
             isReceiving maxLen].
        rewrite Hq. cbn [tl length].
        split; [reflexivity|]. split; [reflexivity|]. split; [auto|].
        split; [reflexivity|]. split; [lia|].
        split.
        -- change (released (?a :: ?b :: ?l)) with (released l).
           rewrite Tr. reflexivity.
        -- unfold count in *.
           cbn [filter is_allocCopy is_handover is_airtime].
           rewrite Tc, Tt, Th. split; reflexivity.
    + rewrite onNotify_rx_run.
      cbn [out final emitted released flat_map app].
      repeat split; auto.
    + rewrite (onNotify_delay_run (S fuel) st Hs).
      destruct (queue (txQueue st)) as [|h rest] eqn:Hq.
      * cbn [out final emitted released flat_map app]. rewrite Hq.
        repeat split; auto.
      * pose proof (transmit_facts (S fuel) st h rest Hs Hq) as F.
        cbv zeta in F. destruct F as (To & Tf & Tr & Tc & Th & _ & _ & Tt).
        rewrite (onNotify_delay_run (S fuel) st Hs), Hq in To, Tf, Tr, Tc, Th, Tt.
        cbn [out final emitted] in *.
        cbn [after_transmit txQueue queue tl sendingPacket isReceiving maxLen].
        rewrite Hq. cbn [tl length].
        split; [reflexivity|]. split; [reflexivity|]. split; [auto|].
        split; [reflexivity|]. split; [lia|].
        split; [rewrite Tr; reflexivity|]. split; congruence.
  - (* startReceive *)
    rewrite app_nil_r.
    rewrite (startReceive_run p st).
    cbn [out final emitted released flat_map app txQueue sendingPacket
         isReceiving].
    repeat split; auto.
  - (* getQueueStatus *)
    rewrite app_nil_r. unfold getQueueStatus, bind; cbn.
    repeat split; auto.
Qed.

Lemma submitted_cons r l : submitted (r :: l) = submitted [r] ++ submitted l.
Proof. unfold submitted. cbn. rewrite app_nil_r. reflexivity. Qed.

(** What a list of requests does to a radio with no packet in flight. *)
Lemma serve_all_facts fuel l : forall st,
  sendingPacket st = None ->
  Forall known l ->
  let x := serve_all (S (S fuel)) l st in
  out x = Ret tt
  /\ sendingPacket (final x) = None
  /\ (isReceiving st = false -> isReceiving (final x) = false)
  /\ maxLen (txQueue (final x)) = maxLen (txQueue st)
  /\ (length (queue (txQueue (final x))) <= length (queue (txQueue st)))%nat
  /\ Permutation (queue (txQueue st) ++ submitted l)
       (released (emitted x) ++ queue (txQueue (final x)))
  /\ count is_allocCopy (emitted x) = count is_handover (emitted x)
  /\ count is_airtime (emitted x) = count is_handover (emitted x).
Proof.
  induction l as [|r l IH]; intros st Hs Hk x; subst x.
  - cbn. rewrite app_nil_r. repeat split; auto.
  - inversion Hk as [|? ? Hr Hl]; subst.
    pose proof (serve_step fuel r st Hs Hr) as F. cbv zeta in F.
    cbn [serve_all].
    destruct (serve (S (S fuel)) r st) as [o s1 e1] eqn:E.
    cbn [out final emitted] in F.
    destruct F as (Fo & Fs & Frx & Fm & Fl & Fp & Fc & Fa). subst o.
    rewrite (bind_run_ret _ _ _ _ _ _ E).
    specialize (IH s1 Fs Hl). cbv zeta in IH.
    destruct IH as (Io & Is & Irx & Im & Il & Ip & Ic & Ia).
    cbn [out final emitted].
    split; [exact Io|]. split; [exact Is|]. split; [auto|].
    split; [congruence|]. split; [lia|].
    split.
    + rewrite submitted_cons, released_app.
      apply (Permutation_trans
               (l' := (released e1 ++ queue (txQueue s1)) ++ submitted l)).
      * rewrite app_assoc. apply Permutation_app_tail. exact Fp.
      * rewrite <- !app_assoc. apply Permutation_app_head. exact Ip.
    + split; rewrite !count_app; congruence.
Qed.

(** X9: An idle radio stays idle.  On a radio with no packet in flight and
    no reception under way, every list of requests the dispatcher knows
    is served to the end: each call returns, and afterwards there is
    still no packet in flight and no reception under way, the capacity
    is the same and no more packets are waiting than before.  The
    situation in which the dispatcher re-arms for ever is therefore out
    of reach of such a radio. *)
Theorem idle_radio_stays_idle (fuel : nat) (l : list request) (st : SimRadio) :
  idle st ->
  Forall known l ->
  let x := serve_all (S (S fuel)) l st in
  out x = Ret tt
  /\ idle (final x)
  /\ maxLen (txQueue (final x)) = maxLen (txQueue st)
  /\ (length (queue (txQueue (final x))) <= length (queue (txQueue st)))%nat.
Proof.
  intros (Hs & Hrx) Hk x.
  destruct (serve_all_facts fuel l st Hs Hk) as (Fo & Fs & Frx & Fm & Fl & _).
  fold x in Fo, Fs, Frx, Fm, Fl. unfold idle. auto.
Qed.

(** X10: No packet is lost and none is released twice.  On a radio with no
    packet in flight, after any list of known requests the packets that
    were waiting before together with the packets submitted are, counted
    with multiplicity, the packets released to the pool together with
    the packets still waiting; if the former are pairwise different, so
    are the packets released. *)
Theorem no_packet_lost_or_released_twice (fuel : nat) (l : list request)
    (st : SimRadio) :
  sendingPacket st = None ->
  Forall known l ->
  let x := serve_all (S (S fuel)) l st in
  Permutation (queue (txQueue st) ++ submitted l)
    (released (emitted x) ++ queue (txQueue (final x)))
  /\ (NoDup (queue (txQueue st) ++ submitted l) ->
      NoDup (released (emitted x))).
Proof.
  intros Hs Hk x.
  destruct (serve_all_facts fuel l st Hs Hk) as (_ & _ & _ & _ & _ & Fp & _).
  fold x in Fp. split; [exact Fp|].
  intros Hnd. apply (Permutation_NoDup Fp) in Hnd.
  exact (NoDup_app_remove_r _ _ Hnd).
Qed.

(** X11: Every copy is handed over and charged.  On a radio with no packet
    in flight, over any list of known requests the number of [allocCopy]
    calls, the number of packets handed to the phone transport or to the
    router, and the number of [logAirtime] calls are the same. *)
Theorem every_copy_is_handed_over (fuel : nat) (l : list request)
    (st : SimRadio) :
  sendingPacket st = None ->
  Forall known l ->
  let x := serve_all (S (S fuel)) l st in
  count is_allocCopy (emitted x) = count is_handover (emitted x)
  /\ count is_airtime (emitted x) = count is_handover (emitted x).
Proof.
  intros Hs Hk x.
  destruct (serve_all_facts fuel l st Hs Hk) as (_ & _ & _ & _ & _ & _ & Fc).
  exact Fc.
Qed.

(** ** A radio that starts empty *)

(** [send] on a radio with an empty queue, room for one packet and no
    packet in flight. *)
Lemma send_on_empty_run fuel p st :
  sendingPacket st = None ->
  queue (txQueue st) = [] ->
  (0 < maxLen (txQueue st))%nat ->
  let r := send (onNotify (S fuel)) p st in
  out r = Ret ERRNO_OK
  /\ final r = {| txQueue := {| queue := []; maxLen := maxLen (txQueue st) |};
                  sendingPacket := None;
                  isReceiving := isReceiving st;
                  txGood := wrap32 (txGood st + 1) |}
  /\ released (emitted r) = [p].
Proof.
  intros Hs Hq Hcap r. subst r.
  assert (Hroom : (length (queue (txQueue st)) < maxLen (txQueue st))%nat)
    by (rewrite Hq; exact Hcap).
  assert (Hq' : queue (txQueue st) ++ [p] = [p]) by (rewrite Hq; reflexivity).
  pose proof (send_room_run (onNotify (S fuel)) p st p [] Hroom Hq') as S0.
  cbv zeta in S0. rewrite Hs in S0.
  match type of S0 with
  | context [onNotify (S fuel) TRANSMIT_DELAY_COMPLETED ?q] =>
      pose proof (transmit_facts fuel q p [] eq_refl eq_refl) as T
  end.
  cbv zeta in T. destruct T as (To & Tf & Tr & _).
  rewrite To, Tf in S0. rewrite S0. cbn [out final emitted].
  split; [reflexivity|]. split; [reflexivity|].
  rewrite !released_app, Tr.
  destruct (PrimFloat.eqb (rx_snr p) 0 && (rx_rssi p =? 0)%Z); reflexivity.
Qed.

(** X12: A radio that starts empty never fills.  On a radio with an empty
    queue of capacity at least one and no packet in flight, any number of
    submits in a row all return [ERRNO_OK]: each packet is sent and
    released before its [send] returns, so the queue is empty again and
    the refusal of a full queue is never met. *)
Theorem submits_on_empty_radio_all_succeed (fuel : nat) (ps : list MeshPacket)
    (st : SimRadio) :
  sendingPacket st = None ->
  queue (txQueue st) = [] ->
  (0 < maxLen (txQueue st))%nat ->
  fst (submit_each (S fuel) ps st) = repeat (Ret ERRNO_OK) (length ps)
  /\ queue (txQueue (snd (submit_each (S fuel) ps st))) = []
  /\ sendingPacket (snd (submit_each (S fuel) ps st)) = None
  /\ maxLen (txQueue (snd (submit_each (S fuel) ps st))) = maxLen (txQueue st).
Proof.
  revert st. induction ps as [|p ps IH]; intros st Hs Hq Hcap.
  - cbn. auto.
  - cbn [submit_each]. cbv zeta.
    destruct (send_on_empty_run fuel p st Hs Hq Hcap) as (So & Sf & _).
    rewrite Sf, So.
    match goal with
    | |- context [submit_each (S fuel) ps ?s] =>
        specialize (IH s eq_refl eq_refl Hcap);
        destruct (submit_each (S fuel) ps s) as [outs s'] eqn:E
    end.
    cbn [fst snd] in *. destruct IH as (Io & Iq & Is & Im).
    cbn [length repeat]. rewrite Io. auto.
Qed.

(** X13: A packet just submitted cannot be cancelled.  On a radio with an
    empty queue, room for one packet and no packet in flight, [send]
    followed by [cancelSending], for the origin and id of the packet or
    for any other, returns [false]: the packet has been sent and released
    inside [send], once, and [cancelSending] finds nothing waiting. *)
Theorem cancel_after_send_finds_nothing (fuel : nat) (p : MeshPacket)
    (origin ident : N) (st : SimRadio) :
  sendingPacket st = None ->
  queue (txQueue st) = [] ->
  (0 < maxLen (txQueue st))%nat ->
  let r := (send (onNotify (S fuel)) p ;; cancelSending origin ident) st in
  out r = Ret false
  /\ released (emitted r) = [p]
  /\ queue (txQueue (final r)) = [].
Proof.
  intros Hs Hq Hcap r. subst r.
  destruct (send_on_empty_run fuel p st Hs Hq Hcap) as (So & Sf & Sr).
  destruct (send (onNotify (S fuel)) p st) as [o s1 e1] eqn:E.
  cbn [out final emitted] in So, Sf, Sr. subst o s1.
  rewrite (bind_run_ret _ _ _ _ _ _ E).
  rewrite cancelSending_run. cbn [txQueue queue remove_first out final emitted].
  rewrite released_app, Sr. repeat split.
Qed.

(** ** Draining the queue *)

(** X14: Each [TRANSMIT_DELAY_COMPLETED] sends one packet, the oldest.  On a
    radio with no packet in flight, [k] of them in a row return, release
    the first [k] waiting packets in the order they were queued, charge
    one airtime for each and leave the others waiting; once the queue is
    empty the remaining ones do nothing. *)
Theorem delays_drain_queue_in_order (fuel k : nat) (st : SimRadio) :
  sendingPacket st = None ->
  let x := serve_all (S (S fuel)) (delays_expired k) st in
  out x = Ret tt
  /\ released (emitted x) = firstn k (queue (txQueue st))
  /\ queue (txQueue (final x)) = skipn k (queue (txQueue st))
  /\ count is_tx_airtime (emitted x) = Nat.min k (length (queue (txQueue st)))
  /\ sendingPacket (final x) = None.
Proof.
  revert st. induction k as [|k IH]; intros st Hs x; subst x.
  - cbn. repeat split; auto.
  - cbn [delays_expired repeat serve_all serve].
    fold (delays_expired k).
    pose proof (onNotify_delay_run (S fuel) st Hs) as D.
    destruct (queue (txQueue st)) as [|h rest] eqn:Hq.
    + rewrite (bind_run_ret _ _ _ _ _ _ D).
      specialize (IH st Hs). cbv zeta in IH. rewrite Hq in IH.
      destruct IH as (Io & Ir & Iq & Ia & Is).
      cbn [out final emitted app released flat_map].
      rewrite firstn_nil, skipn_nil in *.
      unfold count in *. cbn [filter is_tx_airtime].
      cbn [length] in *. rewrite Nat.min_0_r in *. auto.
    + pose proof (transmit_facts (S fuel) st h rest Hs Hq) as T.
      cbv zeta in T. destruct T as (_ & _ & Tr & _ & _ & Ta & _ & _).
      rewrite D in Tr, Ta. cbn [emitted] in Tr, Ta.
      rewrite (bind_run_ret _ _ _ _ _ _ D).
      specialize (IH (after_transmit st) eq_refl). cbv zeta in IH.
      change (queue (txQueue (after_transmit st)))
        with (tl (queue (txQueue st))) in IH.
      rewrite Hq in IH. cbn [tl] in IH.
      destruct IH as (Io & Ir & Iq & Ia & Is).
      cbn [out final emitted].
      split; [exact Io|].
      split; [rewrite released_app, Tr, Ir; reflexivity|].
      split; [exact Iq|].
      split; [rewrite count_app, Ta, Ia; reflexivity|].
      exact Is.
Qed.

(** ** The queue status *)

(** X16: [getQueueStatus] changes nothing and calls nobody; its result code
    and packet id are zero.  On a radio with no packet in flight whose
    queue is within its capacity, after any list of known requests the
    status still reports the capacity the radio started with, and the
    free slots and the waiting packets add up to it. *)
Theorem queue_status_adds_up (fuel : nat) (l : list request) (st : SimRadio) :
  sendingPacket st = None ->
  (length (queue (txQueue st)) <= maxLen (txQueue st))%nat ->
  Forall known l ->
  let st' := final (serve_all (S (S fuel)) l st) in
  exists qs,
    getQueueStatus st' = mkRun (Ret qs) st' []
    /\ res qs = 0 /\ mesh_packet_id qs = 0
    /\ qs_maxlen qs = maxLen (txQueue st)
    /\ (free qs + length (queue (txQueue st')) = qs_maxlen qs)%nat.
Proof.
  intros Hs Hcap Hk st'.
  destruct (serve_all_facts fuel l st Hs Hk) as (_ & _ & _ & Fm & Fl & _).
  fold st' in Fm, Fl.
  eexists. split.
  - unfold getQueueStatus. rewrite bind_get. reflexivity.
  - cbn [res mesh_packet_id qs_maxlen free]. unfold getMaxLen, getFree.
    repeat split; [exact Fm | lia].
Qed.

(** ** The result of [send] *)

(** X6: The result of [send] is decided by two facts.  If the queue has no
    room it returns [ERRNO_UNKNOWN]; if it has room and no packet is in
    flight it returns [ERRNO_OK]; if it has room and a packet is in
    flight it does not return.  It never fails the dispatcher's
    assertion and never dereferences the null front of an empty queue. *)
Theorem send_result_is_decided_by_room_and_flight (fuel : nat)
    (p : MeshPacket) (st : SimRadio) :
  out (send (onNotify (S fuel)) p st) =
  if (length (queue (txQueue st)) <? maxLen (txQueue st))%nat
  then match sendingPacket st with
       | None => Ret ERRNO_OK
       | Some _ => OutOfFuel
       end
  else Ret ERRNO_UNKNOWN.
Proof.
  destruct (Nat.ltb_spec (length (queue (txQueue st))) (maxLen (txQueue st)))
    as [Hroom|Hfull].
  - destruct (queue (txQueue st) ++ [p]) as [|h rest] eqn:Hq.
    { destruct (queue (txQueue st)); discriminate. }
    pose proof (send_room_run (onNotify (S fuel)) p st h rest Hroom Hq) as S0.
    cbv zeta in S0. rewrite S0. clear S0. cbn [out].
    destruct (sendingPacket st) as [q|] eqn:Hs.
    + match goal with
      | |- context [onNotify (S fuel) TRANSMIT_DELAY_COMPLETED ?s] =>
          rewrite (proj1 (onNotify_busy_loops (S fuel) s h rest q eq_refl eq_refl))
      end.
      reflexivity.
    + match goal with
      | |- context [onNotify (S fuel) TRANSMIT_DELAY_COMPLETED ?s] =>
          rewrite (proj1 (transmit_facts fuel s h rest eq_refl eq_refl))
      end.
      reflexivity.
  - rewrite send_refused; [reflexivity|].
    rewrite enqueue_full by exact Hfull. reflexivity.
Qed.

(** ** A transmit interrupt with nothing in flight *)



End Coverage.

Lemma receive_completes_once_witness :
  isReceiving receiving1 = true
  /\ out ((handleReceiveInterrupt (relayed_packet 5) ;;
           handleReceiveInterrupt (relayed_packet 5)) receiving1)
       = Crash AssertFailed.
Proof.
  split; [reflexivity|].
  apply (receive_completes_once (relayed_packet 5) (relayed_packet 5) receiving1).
  reflexivity.
Defined.

Lemma startSend_fitting_payload_is_copied_witness :
  size (payload (decoded (perhapsDecode (local_packet 1))))
    <= sizeof_Compressed_data_bytes
  /\ exists c p',
       emitted (startSend (local_packet 1) idle4) =
         [EvPrintPacket "Starting low level send" (local_packet 1);
          EvAllocCopy (local_packet 1); EvEncode c; EvSendToPhone p']
       /\ size (Compressed_data c) = 3.
Proof.
  split; [vm_compute; discriminate|].
  destruct (startSend_fitting_payload_is_copied (local_packet 1) idle4)
    as (c & p' & He & _ & _ & Hn & _);
    [vm_compute; discriminate | cbn; lia |].
  exists c, p'. split; [exact He | exact Hn].
Defined.

Lemma readData_null_terminates_witness :
  (N.to_nat 2 < length [Byte.x2a; Byte.x2a; Byte.x2a])%nat
  /\ exists data',
       readData 0 [Byte.x2a; Byte.x2a; Byte.x2a] 2 = Some (data', 0%Z)
       /\ nth_error data' (N.to_nat 2) = Some Byte.x00.
Proof.
  split; [cbn; lia|].
  destruct (readData_null_terminates 0 [Byte.x2a; Byte.x2a; Byte.x2a] 2)
    as (data' & Hr & _ & Hz & _); [cbn; lia|].
  exists data'. split; [exact Hr | exact Hz].
Defined.

Lemma tx_interrupt_completes_and_sends_next_witness :
  sendingPacket busy_tx = Some (local_packet 1)
  /\ out (onNotify 2 ISR_TX busy_tx) = Ret tt
  /\ sendingPacket (final (onNotify 2 ISR_TX busy_tx)) = None.
Proof.
  split; [reflexivity|].
  destruct (tx_interrupt_completes_and_sends_next 0 busy_tx (local_packet 1))
    as (Ho & Hs & _); [reflexivity|].
  split; [exact Ho | exact Hs].
Defined.

Lemma send_transmits_oldest_waiting_witness :
  sendingPacket (radio [relayed_packet 2] 4 None false) = None
  /\ released (emitted (send (onNotify 1) (local_packet 1)
                          (radio [relayed_packet 2] 4 None false)))
       = [relayed_packet 2]
  /\ queue (txQueue (final (send (onNotify 1) (local_packet 1)
                              (radio [relayed_packet 2] 4 None false))))
       = [local_packet 1].
Proof.
  split; [reflexivity|].
  destruct (send_transmits_oldest_waiting 0 (local_packet 1) (relayed_packet 2)
              [local_packet 1] (radio [relayed_packet 2] 4 None false))
    as (_ & Hq & _ & _ & Hr & _); [reflexivity | cbn; lia | reflexivity |].
  split; [exact Hr | exact Hq].
Defined.

Lemma send_with_packet_in_flight_never_returns_witness :
  sendingPacket busy_tx = Some (local_packet 1)
  /\ out (send (onNotify 7) (local_packet 3) busy_tx) = OutOfFuel.
Proof.
  split; [reflexivity|].
  apply (send_with_packet_in_flight_never_returns 7 (local_packet 3)
           (local_packet 1) busy_tx); [reflexivity | cbn; lia].
Defined.

Lemma dispatcher_returns_unless_busy_witness :
  (TRANSMIT_DELAY_COMPLETED = ISR_TX \/ TRANSMIT_DELAY_COMPLETED = ISR_RX
   \/ TRANSMIT_DELAY_COMPLETED = TRANSMIT_DELAY_COMPLETED)
  /\ out (onNotify 5 TRANSMIT_DELAY_COMPLETED busy_tx) = OutOfFuel
  /\ out (onNotify 2 TRANSMIT_DELAY_COMPLETED three_waiting) = Ret tt.
Proof.
  assert (K : TRANSMIT_DELAY_COMPLETED = ISR_TX
              \/ TRANSMIT_DELAY_COMPLETED = ISR_RX
              \/ TRANSMIT_DELAY_COMPLETED = TRANSMIT_DELAY_COMPLETED)
    by (right; right; reflexivity).
  split; [exact K|]. split.
  - pose proof (dispatcher_returns_unless_busy 0 TRANSMIT_DELAY_COMPLETED
                  busy_tx K) as W.
    cbv zeta in W. destruct W as [W _]. apply W.
    repeat split; discriminate.
  - pose proof (dispatcher_returns_unless_busy 0 TRANSMIT_DELAY_COMPLETED
                  three_waiting K) as W.
    cbv zeta in W. destruct W as [_ W]. apply W.
    intros (_ & Hs & _). apply Hs. reflexivity.
Defined.

Lemma mixed_requests_known : Forall known mixed_requests.
Proof.
  unfold mixed_requests.
  repeat (apply Forall_cons; [cbn; intuition reflexivity|]).
  apply Forall_nil.
Defined.

Lemma idle_radio_stays_idle_witness :
  idle three_waiting
  /\ out (serve_all 2 mixed_requests three_waiting) = Ret tt
  /\ idle (final (serve_all 2 mixed_requests three_waiting)).
Proof.
  split; [split; reflexivity|].
  destruct (idle_radio_stays_idle 0 mixed_requests three_waiting)
    as (Ho & Hi & _); [split; reflexivity | exact mixed_requests_known |].
  split; [exact Ho | exact Hi].
Defined.

Lemma no_packet_lost_or_released_twice_witness :
  sendingPacket three_waiting = None
  /\ Permutation
       (queue (txQueue three_waiting) ++ submitted mixed_requests)
       (released (emitted (serve_all 2 mixed_requests three_waiting))
          ++ queue (txQueue (final (serve_all 2 mixed_requests three_waiting)))).
Proof.
  split; [reflexivity|].
  apply (no_packet_lost_or_released_twice 0 mixed_requests three_waiting);
    [reflexivity | exact mixed_requests_known].
Defined.

Lemma every_copy_is_handed_over_witness :
  sendingPacket three_waiting = None
  /\ count is_allocCopy (emitted (serve_all 2 mixed_requests three_waiting))
     = count is_handover (emitted (serve_all 2 mixed_requests three_waiting)).
Proof.
  split; [reflexivity|].
  apply (every_copy_is_handed_over 0 mixed_requests three_waiting);
    [reflexivity | exact mixed_requests_known].
Defined.

Lemma queue_status_adds_up_witness :
  sendingPacket three_waiting = None
  /\ exists qs,
       getQueueStatus (final (serve_all 2 mixed_requests three_waiting))
         = mkRun (Ret qs) (final (serve_all 2 mixed_requests three_waiting)) []
       /\ qs_maxlen qs = 4%nat.
Proof.
  split; [reflexivity|].
  destruct (queue_status_adds_up 0 mixed_requests three_waiting)
    as (qs & Hr & _ & _ & Hm & _);
    [reflexivity | cbn; lia | exact mixed_requests_known |].
  exists qs. split; [exact Hr | exact Hm].
Defined.

Lemma submits_on_empty_radio_all_succeed_witness :
  queue (txQueue idle4) = []
  /\ fst (submit_each 1 (map local_packet [1; 2; 3; 4; 5; 6]) idle4)
     = repeat (Ret ERRNO_OK) 6.
Proof.
  split; [reflexivity|].
  apply (submits_on_empty_radio_all_succeed 0
           (map local_packet [1; 2; 3; 4; 5; 6]) idle4);
    [reflexivity | reflexivity | cbn; lia].
Defined.

Lemma cancel_after_send_finds_nothing_witness :
  queue (txQueue idle4) = []
  /\ out ((send (onNotify 1) (local_packet 1) ;; cancelSending 7 1) idle4)
     = Ret false.
Proof.
  split; [reflexivity|].
  apply (cancel_after_send_finds_nothing 0 (local_packet 1) 7 1 idle4);
    [reflexivity | reflexivity | cbn; lia].
Defined.

Lemma delays_drain_queue_in_order_witness :
  sendingPacket three_waiting = None
  /\ released (emitted (serve_all 2 (delays_expired 2) three_waiting))
     = [relayed_packet 1; local_packet 2]
  /\ queue (txQueue (final (serve_all 2 (delays_expired 2) three_waiting)))
     = [local_packet 3].
Proof.
  split; [reflexivity|].
  destruct (delays_drain_queue_in_order 0 2 three_waiting)
    as (_ & Hr & Hq & _); [reflexivity|].
  split; [exact Hr | exact Hq].
Defined.


